(** * ai-tutor-backend: the resilient multi-model request gateway

    A shallow embedding of [ChatService] (chat.service.ts, the multi-language
    revision with model fallback) and of [ChatController.sendMessage]
    (chat.controller.ts), together with the JavaScript built-ins they rely
    on ([String.prototype.toLowerCase], [includes], [replace], [trim],
    [Array.prototype.slice], [JSON.parse]).

    Conventions.
    - A JavaScript string is a [string]: the sequence of the bytes of its
      UTF-8 encoding.  Case mapping is the one of ASCII letters.  The
      literals the service looks for are ASCII, and the only characters
      outside ASCII whose lower case contains an ASCII letter are U+212A
      (giving k, a letter of no literal) and U+0130 (giving i followed by
      U+0307, where every literal has a letter after its i), so
      [isRateLimitError] decides as it does under the full Unicode mapping.
    - The provider SDK is an oracle: its answer may depend on every call
      made so far.
    - Calls to [this.logger] have no influence on any result and are left
      out; [onModuleInit] is taken to have run ([this.genAI] is the oracle). *)

From Stdlib Require Import String Ascii List Arith NArith Lia Bool DecimalString.
Import ListNotations.
Local Open Scope string_scope.
Local Open Scope bool_scope.

(** ** JavaScript built-ins used by the service *)
Module Js.

(** One-character strings that cannot be written inside a literal. *)
Definition dq : string := String (ascii_of_nat 34) EmptyString.
Definition nl : string := String (ascii_of_nat 10) EmptyString.

(** [c.toLowerCase()] on one ASCII character. *)
Definition toLowerChar (c : ascii) : ascii :=
  let n := nat_of_ascii c in
  if ((65 <=? n)%nat && (n <=? 90)%nat) then ascii_of_nat (n + 32) else c.

(** [s.toLowerCase()]. *)
Fixpoint toLowerCase (s : string) : string :=
  match s with
  | EmptyString => EmptyString
  | String c s' => String (toLowerChar c) (toLowerCase s')
  end.

(** [s.includes(pat)]: [pat] occurs in [s] at some position. *)
Fixpoint includes (s pat : string) : bool :=
  prefix pat s ||
  match s with
  | EmptyString => false
  | String _ s' => includes s' pat
  end.

(** Truthiness of a string: [Boolean(s)]. *)
Definition truthy (s : string) : bool :=
  match s with EmptyString => false | String _ _ => true end.

(** An [Error] object: its [name] and its (possibly undefined) [message]. *)
Record Error : Type := mkError { name : string; message : option string }.

(** [new Error(msg)]. *)
Definition new_Error (msg : string) : Error :=
  {| name := "Error"; message := Some msg |}.

(** How a call completes: [return v] or [throw e]. *)
Inductive Completion (A E : Type) : Type :=
| Return (v : A)
| Throw (e : E).
Arguments Return {A E} v.
Arguments Throw {A E} e.

(** *** [String.prototype.trim]

    White space and line terminators of ECMAScript, as the bytes of their
    UTF-8 encoding: TAB, LF, VT, FF, CR, SP; U+00A0; U+1680; U+2000..U+200A,
    U+2028, U+2029, U+202F, U+205F; U+3000; U+FEFF. *)
Definition isWhiteSpace1 (a : ascii) : bool :=
  let a := nat_of_ascii a in
  ((9 <=? a) && (a <=? 13) || (a =? 32))%nat.

Definition isWhiteSpace2 (a b : ascii) : bool :=
  ((nat_of_ascii a =? 194) && (nat_of_ascii b =? 160))%nat.

Definition isWhiteSpace3 (a b c : ascii) : bool :=
  let a := nat_of_ascii a in
  let b := nat_of_ascii b in
  let c := nat_of_ascii c in
  ((a =? 225) && (b =? 154) && (c =? 128) ||
   (a =? 226) && (b =? 128) &&
     ((128 <=? c) && (c <=? 138) || (c =? 168) || (c =? 169) || (c =? 175)) ||
   (a =? 226) && (b =? 129) && (c =? 159) ||
   (a =? 227) && (b =? 128) && (c =? 128) ||
   (a =? 239) && (b =? 187) && (c =? 191))%nat.

(** Drops leading white space.  With [backwards] the bytes of [s] are read
    in reverse order, as they are when [s] is a reversed string. *)
Fixpoint dropWhiteSpace (backwards : bool) (s : string) : string :=
  match s with
  | EmptyString => s
  | String a s1 =>
      if isWhiteSpace1 a then dropWhiteSpace backwards s1
      else
        match s1 with
        | EmptyString => s
        | String b s2 =>
            if (if backwards then isWhiteSpace2 b a else isWhiteSpace2 a b)
            then dropWhiteSpace backwards s2
            else
              match s2 with
              | EmptyString => s
              | String c s3 =>
                  if (if backwards then isWhiteSpace3 c b a
                      else isWhiteSpace3 a b c)
                  then dropWhiteSpace backwards s3
                  else s
              end
        end
  end.

Definition reverse (s : string) : string :=
  string_of_list_ascii (rev (list_ascii_of_string s)).

Definition trimStart (s : string) : string := dropWhiteSpace false s.
Definition trimEnd (s : string) : string :=
  reverse (dropWhiteSpace true (reverse s)).
Definition trim (s : string) : string := trimEnd (trimStart s).

(** *** [Array.prototype.slice] with a negative start: [l.slice(-n)]. *)
Definition sliceLast {A : Type} (n : nat) (l : list A) : list A :=
  skipn (List.length l - n) l.

(** [|| dflt] on an optional value, and a defaulted parameter. *)
Definition orElse {A : Type} (o : option A) (dflt : A) : A :=
  match o with Some a => a | None => dflt end.

(** Decimal rendering of a number inside a template literal. *)
Definition numberToString (n : nat) : string :=
  NilZero.string_of_uint (Nat.to_uint n).

(** [l.map((x, index) => f(x, index))], counting from [index]. *)
Fixpoint mapIndexed {A B : Type} (f : A -> nat -> B) (index : nat)
    (l : list A) : list B :=
  match l with
  | [] => []
  | x :: l' => f x index :: mapIndexed f (S index) l'
  end%list.

(** *** JSON values and [JSON.parse] *)

(** A number keeps its source text: its floating-point value plays no role. *)
#[local] Set Warnings "-register-all".
Inductive JsValue : Type :=
| JNull
| JBool (b : bool)
| JNumber (lexeme : string)
| JString (s : string)
| JArray (elements : list JsValue)
| JObject (properties : list (string * JsValue)).

(** [obj[key] = v] on the properties of an object: a key already present
    keeps its place and takes the new value. *)
Fixpoint setProperty (key : string) (v : JsValue)
    (properties : list (string * JsValue)) : list (string * JsValue) :=
  match properties with
  | [] => [(key, v)]
  | (k, w) :: rest =>
      if String.eqb k key then (k, v) :: rest
      else (k, w) :: setProperty key v rest
  end%list.

(** [obj[key]] on the properties of an object. *)
Fixpoint getProperty (key : string) (properties : list (string * JsValue))
    : option JsValue :=
  match properties with
  | [] => None
  | (k, w) :: rest => if String.eqb k key then Some w else getProperty key rest
  end%list.

Inductive Token : Type :=
| TLBrace | TRBrace | TLBracket | TRBracket | TColon | TComma
| TLit (v : JsValue).

Definition isJsonWhiteSpace (c : ascii) : bool :=
  let n := nat_of_ascii c in
  ((n =? 32) || (n =? 9) || (n =? 10) || (n =? 13))%nat.

Definition isDigit (c : ascii) : bool :=
  let n := nat_of_ascii c in ((48 <=? n) && (n <=? 57))%nat.

Definition hexDigit (c : ascii) : option N :=
  let n := N_of_ascii c in
  if ((48 <=? n) && (n <=? 57))%N then Some (n - 48)%N
  else if ((65 <=? n) && (n <=? 70))%N then Some (n - 55)%N
  else if ((97 <=? n) && (n <=? 102))%N then Some (n - 87)%N
  else None.

Fixpoint drop (n : nat) (s : string) : string :=
  match n, s with
  | S n', String _ s' => drop n' s'
  | _, _ => s
  end.

(** Number of leading decimal digits. *)
Fixpoint digits (s : string) : nat :=
  match s with
  | String c s' => if isDigit c then S (digits s') else 0
  | EmptyString => 0
  end.

(** Length of the JSON number at the head of [s]: an optional minus sign;
    then a single 0, or a digit from 1 to 9 followed by any digits; then
    optionally a dot and at least one digit; then optionally e or E, an
    optional sign and at least one digit. *)
Definition scanNumber (s : string) : option nat :=
  let neg := if prefix "-" s then 1 else 0 in
  let s1 := drop neg s in
  let int :=
    match s1 with
    | String c _ =>
        if (nat_of_ascii c =? 48)%nat then Some 1
        else if isDigit c then Some (digits s1) else None
    | EmptyString => None
    end in
  match int with
  | None => None
  | Some ni =>
      let s2 := drop ni s1 in
      let frac :=
        match s2 with
        | String "."%char s3 =>
            match digits s3 with 0 => None | S k => Some (2 + k) end
        | _ => Some 0
        end in
      match frac with
      | None => None
      | Some nf =>
          let s4 := drop nf s2 in
          let exp :=
            match s4 with
            | String c s5 =>
                if ((nat_of_ascii c =? 101) || (nat_of_ascii c =? 69))%nat
                then
                  let sign :=
                    match s5 with
                    | String "+"%char _ | String "-"%char _ => 1
                    | _ => 0
                    end in
                  match digits (drop sign s5) with
                  | 0 => None
                  | S k => Some (2 + sign + k)
                  end
                else Some 0
            | EmptyString => Some 0
            end in
          match exp with
          | None => None
          | Some ne => Some (neg + ni + nf + ne)
          end
      end
  end.

(** What a string literal contributes: a byte of the source, or the UTF-16
    code unit written as a u-escape of four hexadecimal digits. *)
Inductive StringItem : Type :=
| Raw (c : ascii)
| Unit16 (u : N).

Definition simpleEscape (c : ascii) : option ascii :=
  let n := nat_of_ascii c in
  if (n =? 34)%nat then Some c                       (* quotation mark *)
  else if (n =? 92)%nat then Some c                  (* reverse solidus *)
  else if (n =? 47)%nat then Some c                  (* solidus *)
  else if (n =? 98)%nat then Some (ascii_of_nat 8)   (* b: backspace *)
  else if (n =? 102)%nat then Some (ascii_of_nat 12) (* f: form feed *)
  else if (n =? 110)%nat then Some (ascii_of_nat 10) (* n: line feed *)
  else if (n =? 114)%nat then Some (ascii_of_nat 13) (* r: carriage return *)
  else if (n =? 116)%nat then Some (ascii_of_nat 9)  (* t: tab *)
  else None.

(** The items of a string literal after its opening quote, and the number of
    characters read up to and including the closing quote. *)
Fixpoint scanString (s : string) : option (list StringItem * nat) :=
  match s with
  | EmptyString => None
  | String c s1 =>
      if (nat_of_ascii c =? 34)%nat then Some ([], 1)%list
      else if (nat_of_ascii c =? 92)%nat then
        match s1 with
        | EmptyString => None
        | String e s2 =>
            match simpleEscape e with
            | Some x =>
                match scanString s2 with
                | Some (items, n) => Some (Raw x :: items, 2 + n)%list
                | None => None
                end
            | None =>
                if (nat_of_ascii e =? 117)%nat then
                  match s2 with
                  | String h1 (String h2 (String h3 (String h4 s6))) =>
                      match hexDigit h1, hexDigit h2, hexDigit h3, hexDigit h4
                      with
                      | Some d1, Some d2, Some d3, Some d4 =>
                          match scanString s6 with
                          | Some (items, n) =>
                              Some (Unit16 (((d1 * 16 + d2) * 16 + d3) * 16
                                            + d4)%N :: items, 6 + n)%list
                          | None => None
                          end
                      | _, _, _, _ => None
                      end
                  | _ => None
                  end
                else None
            end
        end
      else if (nat_of_ascii c <? 32)%nat then None
      else
        match scanString s1 with
        | Some (items, n) => Some (Raw c :: items, 1 + n)%list
        | None => None
        end
  end.

(** UTF-8 bytes of a code point (a lone surrogate is encoded the same way). *)
Definition utf8 (cp : N) : string :=
  let byte n := String (ascii_of_N n) EmptyString in
  if (cp <? 128)%N then byte cp
  else if (cp <? 2048)%N then
    byte (192 + cp / 64)%N ++ byte (128 + cp mod 64)%N
  else if (cp <? 65536)%N then
    byte (224 + cp / 4096)%N ++ byte (128 + (cp / 64) mod 64)%N
    ++ byte (128 + cp mod 64)%N
  else
    byte (240 + cp / 262144)%N ++ byte (128 + (cp / 4096) mod 64)%N
    ++ byte (128 + (cp / 64) mod 64)%N ++ byte (128 + cp mod 64)%N.

Definition isHighSurrogate (u : N) : bool :=
  ((55296 <=? u) && (u <=? 56319))%N.
Definition isLowSurrogate (u : N) : bool :=
  ((56320 <=? u) && (u <=? 57343))%N.

(** The value of a string literal: a surrogate pair is one code point. *)
Fixpoint decodeItems (items : list StringItem) : string :=
  match items with
  | [] => EmptyString
  | Raw c :: rest => String c (decodeItems rest)
  | Unit16 hi :: rest =>
      match rest with
      | Unit16 lo :: rest' =>
          if isHighSurrogate hi && isLowSurrogate lo
          then utf8 (65536 + (hi - 55296) * 1024 + (lo - 56320))%N
               ++ decodeItems rest'
          else utf8 hi ++ decodeItems rest
      | _ => utf8 hi ++ decodeItems rest
      end
  end.

(** The token at the head of [s] and its length. *)
Definition scanToken (s : string) : option (Token * nat) :=
  match s with
  | EmptyString => None
  | String c s1 =>
      let n := nat_of_ascii c in
      if (n =? 123)%nat then Some (TLBrace, 1)
      else if (n =? 125)%nat then Some (TRBrace, 1)
      else if (n =? 91)%nat then Some (TLBracket, 1)
      else if (n =? 93)%nat then Some (TRBracket, 1)
      else if (n =? 58)%nat then Some (TColon, 1)
      else if (n =? 44)%nat then Some (TComma, 1)
      else if (n =? 34)%nat then
        match scanString s1 with
        | Some (items, len) => Some (TLit (JString (decodeItems items)), S len)
        | None => None
        end
      else if prefix "null" s then Some (TLit JNull, 4)
      else if prefix "true" s then Some (TLit (JBool true), 4)
      else if prefix "false" s then Some (TLit (JBool false), 5)
      else
        match scanNumber s with
        | Some len => Some (TLit (JNumber (substring 0 len s)), len)
        | None => None
        end
  end.

(** The tokens of [s]; [skip] characters at the head of [s] belong to the
    token found last. *)
Fixpoint tokenize (s : string) (skip : nat) : option (list Token) :=
  match s with
  | EmptyString => Some []
  | String c s' =>
      match skip with
      | S k => tokenize s' k
      | 0 =>
          if isJsonWhiteSpace c then tokenize s' 0
          else
            match scanToken s with
            | Some (t, len) =>
                match tokenize s' (len - 1) with
                | Some ts => Some (t :: ts)
                | None => None
                end
            | None => None
            end
      end
  end%list.

(** A container under construction: the elements read so far (last first),
    or the properties read so far and the key awaiting its value. *)
Inductive Frame : Type :=
| InArray (elements : list JsValue)
| InObject (properties : list (string * JsValue)) (key : option string).

(** What the grammar allows next. *)
Inductive Expect : Type :=
| Value           (* a value *)
| ValueOrClose    (* just after [[] *)
| KeyOrClose      (* just after [{] *)
| Key             (* after a comma inside an object *)
| Colon
| CommaOrClose    (* after a value inside a container *)
| Done (v : JsValue).

(** A complete value [v] goes to the innermost open container. *)
Definition complete (v : JsValue) (stack : list Frame)
    : option (list Frame * Expect) :=
  match stack with
  | [] => Some ([], Done v)
  | InArray elements :: stack' =>
      Some (InArray (v :: elements) :: stack', CommaOrClose)
  | InObject properties (Some key) :: stack' =>
      Some (InObject (setProperty key v properties) None :: stack',
            CommaOrClose)
  | InObject _ None :: _ => None
  end%list.

Definition parseStep (state : list Frame * Expect) (t : Token)
    : option (list Frame * Expect) :=
  let (stack, expect) := state in
  match expect, t, stack with
  | (Value | ValueOrClose), TLit v, _ => complete v stack
  | (Value | ValueOrClose), TLBracket, _ =>
      Some (InArray [] :: stack, ValueOrClose)
  | (Value | ValueOrClose), TLBrace, _ =>
      Some (InObject [] None :: stack, KeyOrClose)
  | ValueOrClose, TRBracket, InArray elements :: stack' =>
      complete (JArray (rev elements)) stack'
  | (KeyOrClose | Key), TLit (JString key), InObject properties None :: stack' =>
      Some (InObject properties (Some key) :: stack', Colon)
  | KeyOrClose, TRBrace, InObject properties None :: stack' =>
      complete (JObject properties) stack'
  | Colon, TColon, _ => Some (stack, Value)
  | CommaOrClose, TComma, InArray _ :: _ => Some (stack, Value)
  | CommaOrClose, TComma, InObject _ _ :: _ => Some (stack, Key)
  | CommaOrClose, TRBracket, InArray elements :: stack' =>
      complete (JArray (rev elements)) stack'
  | CommaOrClose, TRBrace, InObject properties None :: stack' =>
      complete (JObject properties) stack'
  | _, _, _ => None
  end%list.

Fixpoint parseTokens (state : list Frame * Expect) (ts : list Token)
    : option JsValue :=
  match ts with
  | [] => match snd state with Done v => Some v | _ => None end
  | t :: ts' =>
      match parseStep state t with
      | Some state' => parseTokens state' ts'
      | None => None
      end
  end%list.

(** [JSON.parse(text)]: the value, or [None] where it throws a SyntaxError. *)
Definition JSON_parse (text : string) : option JsValue :=
  match tokenize text 0 with
  | Some ts => parseTokens ([], Value)%list ts
  | None => None
  end.

(** An [HttpException] of NestJS: response message and status code. *)
Record HttpException : Type :=
  mkHttpException { response : string; status : nat }.

Definition INTERNAL_SERVER_ERROR : nat := 500.
Definition TOO_MANY_REQUESTS : nat := 429.

End Js.
Import Js.

(** ** The provider *)

(** One invocation of the provider: model identifier and prompt. *)
Definition Call : Type := (string * string)%type.

(** [genAI.getGenerativeModel({model}).generateContent(prompt)] followed by
    [result.response.text()]: either the text or the error thrown, as a
    function of the calls already made, the model and the prompt. *)
Definition Provider : Type := list Call -> string -> string -> string + Error.

(** ** dto/chat.dto.ts *)
Module Dto.

Inductive SupportedLanguage : Type :=
| english | japanese | korean | chinese | french | german | spanish.

Definition SUPPORTED_LANGUAGES : list SupportedLanguage :=
  [ english; japanese; korean; chinese; french; german; spanish ].

(** Every field is optional. *)
Record ChatMessageData : Type := mkChatMessageData {
  original : option string;
  correction : option string;
  correctionPronunciation : option string;
  explanation : option string;
  reply : option string;
  pronunciation : option string
}.

Inductive Role : Type := user | assistant.

(** The optional [id] and [timestamp] are never read and are left out. *)
Record ChatMessage : Type := mkChatMessage {
  role : Role;
  content : string;
  data : option ChatMessageData
}.

Record SendMessageDto : Type := mkSendMessageDto {
  message : string;
  targetLanguage : option SupportedLanguage;
  chatHistory : option (list ChatMessage)
}.

(** [ChatResponseDto]: at run time [data] is whatever value the service put
    there. *)
Module ChatResponseDto.
Record t : Type := mk { success : bool; data : JsValue }.
End ChatResponseDto.

End Dto.
Import Dto.

(** ** chat.service.ts *)
Module ChatService.

Record LanguageConfig : Type := mkLanguageConfig {
  name : string;
  nativeName : string;
  tutorDescription : string;
  pronunciationSystem : string;
  pronunciationExample : string;
  exampleOriginal : string;
  exampleCorrection : string;
  exampleCorrectionPronunciation : string;
  exampleExplanation : string;
  exampleReply : string;
  examplePronunciation : string;
  specialRules : list string
}.

Definition LANGUAGE_CONFIGS (language : SupportedLanguage) : LanguageConfig :=
  match language with
  | english =>
      {|
        name := "English";
        nativeName := "English";
        tutorDescription := "a professional British/American English speaking tutor";
        pronunciationSystem := "IPA (International Phonetic Alphabet) with American English symbols";
        pronunciationExample := "/ɡreɪt ˈɛfərt!/";
        exampleOriginal := "I go to school yesterday";
        exampleCorrection := "I went to school yesterday";
        exampleCorrectionPronunciation := "/aɪ wɛnt tu skul ˈjɛstərˌdeɪ/";
        exampleExplanation := "We use 'went' (past tense) because 'yesterday' indicates a past time.";
        exampleReply := "Great effort! You're talking about the past, so we use 'went' instead of 'go'. Can you tell me more about what you did at school yesterday?";
        examplePronunciation := "/ɡreɪt ˈɛfərt! jʊr ˈtɔkɪŋ əˈbaʊt ðə pæst/";
        specialRules := [
          "Use primary stress mark ˈ before stressed syllables";
          "Focus on common pronunciation mistakes for non-native speakers"
        ]%list
      |}
  | japanese =>
      {|
        name := "Japanese";
        nativeName := "日本語";
        tutorDescription := "a professional Japanese language tutor (日本語の先生)";
        pronunciationSystem := "Romaji with pitch accent markers (High: ꜛ, Low: ꜜ) and Hiragana reading";
        pronunciationExample := "すꜛごꜜい (sugoi)";
        exampleOriginal := "昨日学校に行くました";
        exampleCorrection := "昨日学校に行きました";
        exampleCorrectionPronunciation := "きꜛのꜜう がꜛっこꜜうに いꜛきまꜜした (kinou gakkou ni ikimashita)";
        exampleExplanation := "「行く」の過去形は「行きました」です。「行くました」は文法的に正しくありません。";
        exampleReply := "いい調子ですね！過去形の練習をしましょう。昨日、学校で何をしましたか？";
        examplePronunciation := "いꜛいꜜ ちょꜛうしꜜ ですꜜね (ii choushi desu ne)";
        specialRules := [
          "Pay attention to particle usage (は, が, を, に, で, etc.)";
          "Check verb conjugation forms (て形, た形, ます形)";
          "Watch for keigo (敬語) politeness levels";
          "Include both Hiragana reading and Romaji for pronunciation"
        ]%list
      |}
  | korean =>
      {|
        name := "Korean";
        nativeName := "한국어";
        tutorDescription := "a professional Korean language tutor (한국어 선생님)";
        pronunciationSystem := "Revised Romanization with Hangul";
        pronunciationExample := "잘했어요 (jalhaesseoyo)";
        exampleOriginal := "어제 학교에 가요";
        exampleCorrection := "어제 학교에 갔어요";
        exampleCorrectionPronunciation := "어제 학교에 갔어요 (eoje hakgyoe gasseoyo)";
        exampleExplanation := "과거를 표현할 때는 '-았/었어요'를 사용합니다. '가요'는 현재형이에요.";
        exampleReply := "잘하고 있어요! 과거형 연습을 해볼까요? 어제 학교에서 뭐 했어요?";
        examplePronunciation := "잘하고 있어요 (jalhago isseoyo)";
        specialRules := [
          "Check for proper honorific levels (존댓말/반말)";
          "Watch for particle usage (은/는, 이/가, 을/를)";
          "Pay attention to verb conjugation (past, present, future)";
          "Note pronunciation changes (연음, 경음화, etc.)"
        ]%list
      |}
  | chinese =>
      {|
        name := "Chinese";
        nativeName := "中文";
        tutorDescription := "a professional Mandarin Chinese tutor (中文老师)";
        pronunciationSystem := "Pinyin with tone marks (1: ā, 2: á, 3: ǎ, 4: à)";
        pronunciationExample := "hěn bàng! (很棒!)";
        exampleOriginal := "我昨天去学校了";
        exampleCorrection := "我昨天去学校了";
        exampleCorrectionPronunciation := "wǒ zuótiān qù xuéxiào le";
        exampleExplanation := "这句话是正确的！" ++ dq ++ "了" ++ dq ++ "表示动作完成，用得很好。";
        exampleReply := "说得很好！你的中文在进步。昨天在学校做了什么？";
        examplePronunciation := "shuō de hěn hǎo! nǐ de zhōngwén zài jìnbù.";
        specialRules := [
          "Always include tone marks in Pinyin";
          "Check for measure word (量词) usage";
          "Watch for aspect markers (了, 过, 着)";
          "Pay attention to word order (SVO structure)"
        ]%list
      |}
  | french =>
      {|
        name := "French";
        nativeName := "Français";
        tutorDescription := "a professional French language tutor (professeur de français)";
        pronunciationSystem := "IPA with French phonemes and liaison markers";
        pronunciationExample := "/tʁɛ bjɛ̃/ (très bien)";
        exampleOriginal := "Je suis allé à école hier";
        exampleCorrection := "Je suis allé à l'école hier";
        exampleCorrectionPronunciation := "/ʒə sɥi‿ale a lekɔl jɛʁ/";
        exampleExplanation := "On utilise l'article défini contracté " ++ dq ++ "l'" ++ dq ++ " devant " ++ dq ++ "école" ++ dq ++ " car le mot commence par une voyelle.";
        exampleReply := "Très bien ! N'oubliez pas les articles. Qu'avez-vous fait à l'école hier ?";
        examplePronunciation := "/tʁɛ bjɛ̃! nublije pa lez‿aʁtikl/";
        specialRules := [
          "Check for gender agreement (le/la, un/une)";
          "Watch for verb conjugation and tense agreement";
          "Note liaisons between words";
          "Pay attention to accent marks (é, è, ê, ë, etc.)"
        ]%list
      |}
  | german =>
      {|
        name := "German";
        nativeName := "Deutsch";
        tutorDescription := "a professional German language tutor (Deutschlehrer)";
        pronunciationSystem := "IPA with German phonemes";
        pronunciationExample := "/zeːɐ̯ guːt/ (sehr gut)";
        exampleOriginal := "Ich bin gestern in die Schule gegangen";
        exampleCorrection := "Ich bin gestern in die Schule gegangen";
        exampleCorrectionPronunciation := "/ɪç bɪn ˈɡɛstɐn ɪn diː ˈʃuːlə ɡəˈɡaŋən/";
        exampleExplanation := "Perfekt! Der Satz ist grammatikalisch korrekt. " ++ dq ++ "Gegangen" ++ dq ++ " ist das Partizip II von " ++ dq ++ "gehen" ++ dq ++ ".";
        exampleReply := "Sehr gut! Dein Deutsch ist ausgezeichnet. Was hast du gestern in der Schule gemacht?";
        examplePronunciation := "/zeːɐ̯ guːt! daɪn dɔʏtʃ ɪst ˈaʊsɡəˌtsaɪçnət/";
        specialRules := [
          "Check for correct case usage (Nominativ, Akkusativ, Dativ, Genitiv)";
          "Watch for verb position in main and subordinate clauses";
          "Pay attention to noun gender (der, die, das)";
          "Note separable prefix verbs"
        ]%list
      |}
  | spanish =>
      {|
        name := "Spanish";
        nativeName := "Español";
        tutorDescription := "a professional Spanish language tutor (profesor de español)";
        pronunciationSystem := "IPA with Spanish phonemes";
        pronunciationExample := "/ˈmui ˈbjen/ (muy bien)";
        exampleOriginal := "Yo fui a la escuela ayer";
        exampleCorrection := "Ayer fui a la escuela";
        exampleCorrectionPronunciation := "/aˈʝeɾ fwi a la esˈkwela/";
        exampleExplanation := "En español, es más natural poner el tiempo al principio. También, el pronombre " ++ dq ++ "yo" ++ dq ++ " es opcional porque el verbo ya indica la persona.";
        exampleReply := "¡Muy bien! Tu español está mejorando. ¿Qué hiciste en la escuela ayer?";
        examplePronunciation := "/ˈmui ˈbjen! tu espaˈɲol esˈta mexoˈɾando/";
        specialRules := [
          "Check for correct verb conjugation (especially irregular verbs)";
          "Watch for ser vs estar usage";
          "Pay attention to gender and number agreement";
          "Note the use of subjunctive mood when appropriate"
        ]%list
      |}
  end.

(** List of Gemini models to try in order (fallback mechanism). *)
Definition GEMINI_MODELS : list string :=
  [ "gemini-3-flash-preview"; "gemini-2.5-flash"; "gemini-2.0-flash" ].

(** The mutable fields of the service object. *)
Record t : Type := mk { currentModelIndex : nat }.

(** Field initialisers: [private currentModelIndex = 0]. *)
Definition init : t := {| currentModelIndex := 0 |}.

Definition isRateLimitError (error : Error) : bool :=
  let message :=
    match Js.message error with
    | Some m => toLowerCase m
    | None => EmptyString
    end in
  includes message "429" ||
  includes message "too many requests" ||
  includes message "resource exhausted" ||
  includes message "quota" ||
  includes message "rate limit".

Section Fallback.

(** The candidate list; the service runs with [GEMINI_MODELS]. *)
Variable models : list string.
Variable genAI : Provider.
Variable prompt : string.

(** [GEMINI_MODELS[modelIndex]] (the index is always in range). *)
Definition modelAt (modelIndex : nat) : string :=
  nth modelIndex models EmptyString.

(** The body of [for (let i = 0; i < GEMINI_MODELS.length; i++)], run over
    the remaining values [todo] of [i]; after the last one comes the
    [throw lastError || new Error(...)] that follows the loop. *)
Fixpoint fallbackLoop (startIndex : nat) (todo : list nat)
    (lastError : option Error) (this : t) (calls : list Call)
    : Completion string Error * t * list Call :=
  match todo with
  | [] =>
      (Throw match lastError with
             | Some e => e
             | None => new_Error "All Gemini models are unavailable"
             end,
       this, calls)
  | i :: todo' =>
      let modelIndex := (startIndex + i) mod List.length models in
      let modelName := modelAt modelIndex in
      let calls' := (calls ++ [(modelName, prompt)])%list in
      match genAI calls modelName prompt with
      | inl text =>
          (Return text, {| currentModelIndex := modelIndex |}, calls')
      | inr error =>
          if isRateLimitError error
          then fallbackLoop startIndex todo' (Some error) this calls'
          else (Throw error, this, calls')
      end
  end.

Definition generateWithFallbackOn (this : t) (calls : list Call)
    : Completion string Error * t * list Call :=
  fallbackLoop (currentModelIndex this) (seq 0 (List.length models))
               None this calls.

End Fallback.

Definition generateWithFallback (genAI : Provider) (prompt : string)
    (this : t) (calls : list Call)
    : Completion string Error * t * list Call :=
  generateWithFallbackOn GEMINI_MODELS genAI prompt this calls.

(** *** The prompt *)

Definition getSystemPrompt (language : SupportedLanguage) : string :=
  let config := LANGUAGE_CONFIGS language in
  let specialRulesText :=
    String.concat nl
      (mapIndexed (fun rule index => numberToString (index + 8) ++ ". " ++ rule)
                  0 (specialRules config)) in
  String.concat nl [
      "You are " ++ tutorDescription config ++ ". Your role is to help students improve their " ++ name config ++ " (" ++ nativeName config ++ ") speaking skills.";
      EmptyString;
      "When a student speaks, you must respond in a structured JSON format with the following fields:";
      "- original: The original text the student said (exactly as they said it)";
      "- correction: The corrected version if there are any grammar, pronunciation, or vocabulary mistakes";
      "- correctionPronunciation: " ++ pronunciationSystem config ++ " transcription of the CORRECTED sentence (this helps students practice the correct pronunciation)";
      "- explanation: A brief, friendly explanation of the correction (if any mistakes were found) - respond in " ++ name config;
      "- reply: Your natural, conversational reply as a tutor in " ++ name config ++ " (encourage the student, ask follow-up questions, or provide feedback)";
      "- pronunciation: " ++ pronunciationSystem config ++ " transcription of your reply";
      EmptyString;
      "IMPORTANT RULES:";
      "1. Always return valid JSON only, no additional text before or after";
      "2. If the student's " ++ name config ++ " is perfect, set " ++ dq ++ "correction" ++ dq ++ " to the same as " ++ dq ++ "original" ++ dq ++ " and " ++ dq ++ "correctionPronunciation" ++ dq ++ " to the pronunciation of the original";
      "3. Be encouraging and friendly in your " ++ dq ++ "reply" ++ dq ++ " - always respond in " ++ name config;
      "4. Focus on natural conversation flow in " ++ name config;
      "5. If the student makes multiple mistakes, correct the most important ones";
      "6. For pronunciation fields, always use " ++ pronunciationSystem config;
      "7. The " ++ dq ++ "correctionPronunciation" ++ dq ++ " field is REQUIRED - it helps students practice saying the sentence correctly";
      specialRulesText;
      EmptyString;
      "Example response format:";
      "{";
      "  " ++ dq ++ "original" ++ dq ++ ": " ++ dq ++ exampleOriginal config ++ dq ++ ",";
      "  " ++ dq ++ "correction" ++ dq ++ ": " ++ dq ++ exampleCorrection config ++ dq ++ ",";
      "  " ++ dq ++ "correctionPronunciation" ++ dq ++ ": " ++ dq ++ exampleCorrectionPronunciation config ++ dq ++ ",";
      "  " ++ dq ++ "explanation" ++ dq ++ ": " ++ dq ++ exampleExplanation config ++ dq ++ ",";
      "  " ++ dq ++ "reply" ++ dq ++ ": " ++ dq ++ exampleReply config ++ dq ++ ",";
      "  " ++ dq ++ "pronunciation" ++ dq ++ ": " ++ dq ++ examplePronunciation config ++ dq;
      "}"
  ].

(** The callback of [recentHistory.map]. *)
Definition renderTurn (msg : ChatMessage) : string :=
  match role msg with
  | user => "Student: " ++ content msg
  | assistant =>
      match data msg with
      | Some d =>
          match reply d with
          | Some r => if truthy r then "Tutor: " ++ r else EmptyString
          | None => EmptyString
          end
      | None => EmptyString
      end
  end.

(** Build conversation history context. *)
Definition historyContext (chatHistory : list ChatMessage) : string :=
  let recentHistory := sliceLast 10 chatHistory in
  if (0 <? List.length recentHistory)%nat
  then String.concat nl (filter truthy (map renderTurn recentHistory))
  else "This is the start of the conversation.".

Definition fullPrompt (userMessage : string) (chatHistory : list ChatMessage)
    (targetLanguage : SupportedLanguage) : string :=
  getSystemPrompt targetLanguage ++ nl ++ nl ++ "Conversation History:" ++ nl
  ++ historyContext chatHistory ++ nl ++ nl ++ "Student: " ++ userMessage
  ++ nl ++ nl ++ "Tutor (respond in JSON format):".

(** *** Parsing the response *)

(** [text.replace(/```json\n?/g, '')]: scanning from the left, each match
    of three backticks and [json], with the line feed that may follow, is
    removed. *)
Fixpoint removeJsonFences (s : string) : string :=
  match s with
  | EmptyString => EmptyString
  | String "`" (String "`" (String "`"
      (String "j" (String "s" (String "o" (String "n" r)))))) =>
      match r with
      | String "010" r' => removeJsonFences r'
      | _ => removeJsonFences r
      end
  | String c s' => String c (removeJsonFences s')
  end.

(** [text.replace(/```\n?/g, '')]. *)
Fixpoint removeFences (s : string) : string :=
  match s with
  | EmptyString => EmptyString
  | String "`" (String "`" (String "`" r)) =>
      match r with
      | String "010" r' => removeFences r'
      | _ => removeFences r
      end
  | String c s' => String c (removeFences s')
  end.

Definition cleanedText (text : string) : string :=
  trim (removeFences (removeJsonFences text)).

(** Fallback if JSON parsing fails. *)
Definition fallbackData (userMessage text : string) : JsValue :=
  JObject [
    ("original", JString userMessage);
    ("correction", JString userMessage);
    ("correctionPronunciation", JString EmptyString);
    ("explanation", JString EmptyString);
    ("reply", JString text);
    ("pronunciation", JString EmptyString)
  ].

(** The inner [try { ... } catch { ... }] of [sendMessage]. *)
Definition parseResponse (userMessage text : string) : ChatResponseDto.t :=
  match JSON_parse (cleanedText text) with
  | Some jsonResponse =>
      {| ChatResponseDto.success := true;
         ChatResponseDto.data := jsonResponse |}
  | None =>
      {| ChatResponseDto.success := true;
         ChatResponseDto.data := fallbackData userMessage text |}
  end.

(** The outer [catch (error)] of [sendMessage]. *)
Definition toHttpException (error : Error) : HttpException :=
  if match Js.message error with
     | Some m => includes m "API_KEY"
     | None => false
     end
  then {| response := "Invalid API key configuration";
          status := INTERNAL_SERVER_ERROR |}
  else if isRateLimitError error
  then {| response :=
            "All AI models are currently rate limited. Please try again later.";
          status := TOO_MANY_REQUESTS |}
  else {| response :=
            "Failed to get AI response: " ++
            match Js.message error with
            | Some m => if truthy m then m else "Unknown error"
            | None => "Unknown error"
            end;
          status := INTERNAL_SERVER_ERROR |}.

(** [sendMessage(userMessage, chatHistory = [], targetLanguage = 'english')]:
    an omitted argument is [None].  The history is an array or is omitted;
    a call with a null history, on which [slice] throws before any model is
    tried, is not among the calls modelled here. *)
Definition sendMessage (genAI : Provider) (userMessage : string)
    (chatHistory : option (list ChatMessage))
    (targetLanguage : option SupportedLanguage)
    (this : t) (calls : list Call)
    : Completion ChatResponseDto.t HttpException * t * list Call :=
  let chatHistory := orElse chatHistory [] in
  let targetLanguage := orElse targetLanguage english in
  let fullPrompt := fullPrompt userMessage chatHistory targetLanguage in
  match generateWithFallback genAI fullPrompt this calls with
  | (Return text, this', calls') =>
      (Return (parseResponse userMessage text), this', calls')
  | (Throw error, this', calls') =>
      (Throw (toHttpException error), this', calls')
  end.

End ChatService.

(** ** chat.controller.ts *)
Module ChatController.

(** [@Post('send') sendMessage(@Body() dto)]. *)
Definition sendMessage (genAI : Provider) (dto : SendMessageDto)
    (chatService : ChatService.t) (calls : list Call)
    : Completion ChatResponseDto.t HttpException * ChatService.t * list Call :=
  ChatService.sendMessage genAI (message dto) (chatHistory dto)
    (Some (orElse (targetLanguage dto) english)) chatService calls.

End ChatController.

(** ** config/configuration.ts *)
Module Configuration.

(** The variables of [process.env] that the configuration reads; an unset
    variable is [None].  ([PORT], read through [parseInt], is left out.) *)
Record Env : Type := mkEnv {
  NODE_ENV : option string;
  GEMINI_API_KEY : option string;
  CORS_ORIGIN : option string
}.

(** [value || dflt] on a string that may be undefined. *)
Definition orDefault (value : option string) (dflt : string) : string :=
  match value with
  | Some (String c s) => String c s
  | _ => dflt
  end.

(** The entries [nodeEnv], [gemini.apiKey] and [cors.origin]. *)
Definition nodeEnv (env : Env) : string :=
  orDefault (NODE_ENV env) "development".

Definition gemini_apiKey (env : Env) : option string := GEMINI_API_KEY env.

Definition cors_origin (env : Env) : string :=
  orDefault (CORS_ORIGIN env) "http://localhost:5173".

End Configuration.

(** ** main.ts *)
Module Main.
Import Configuration.

(** [s.split(sep)] for a separator of one character. *)
Fixpoint split (sep : ascii) (s : string) : list string :=
  match s with
  | EmptyString => [EmptyString]
  | String c s' =>
      if Ascii.eqb c sep then EmptyString :: split sep s'
      else
        match split sep s' with
        | piece :: pieces => String c piece :: pieces
        | [] => [String c EmptyString]
        end
  end.

(** The [origin] option given to [app.enableCors]:
    [corsOrigin.split(',').map((origin) => origin.trim())], where
    [corsOrigin] is [configService.get('cors.origin')] or the default. *)
Definition corsOrigins (env : Env) : list string :=
  let corsOrigin :=
    orDefault (Some (cors_origin env)) "http://localhost:5173" in
  map trim (split "," corsOrigin).

End Main.

(** * Vocabulary of the properties *)
Module Vocabulary.
Import ChatService.

(** [msg] contains [sub] when letter case is ignored: some part of [msg]
    differs from [sub] in the case of its letters at most. *)
Definition containsIgnoringCase (msg sub : string) : Prop :=
  exists pre mid post,
    msg = pre ++ mid ++ post /\ toLowerCase mid = toLowerCase sub.

(** The [j]-th call of a scan of [models] that starts at [start]. *)
Definition attempt (models : list string) (prompt : string) (start j : nat)
    : Call :=
  (modelAt models ((start + j) mod List.length models), prompt).

(** The calls number [i], ..., [i + k - 1] of that scan, in order. *)
Definition attempts (models : list string) (prompt : string)
    (start i k : nat) : list Call :=
  map (attempt models prompt start) (seq i k).

(** The provider's answer to call number [j] of a scan that began after
    [calls], the calls before it all made. *)
Definition answer (models : list string) (genAI : Provider) (prompt : string)
    (calls : list Call) (start j : nat) : string + Error :=
  genAI (calls ++ attempts models prompt start 0 j)%list
        (modelAt models ((start + j) mod List.length models)) prompt.

(** Call number [j] fails with the rate-limit error [e]. *)
Definition rateLimitedAt (models : list string) (genAI : Provider)
    (prompt : string) (calls : list Call) (start j : nat) (e : Error) : Prop :=
  answer models genAI prompt calls start j = inr e /\
  isRateLimitError e = true.

(** The states the gateway can be in: the field initialisers at process
    start, then one request after the other. *)
Inductive reachable (genAI : Provider) : ChatService.t -> list Call -> Prop :=
| reachable_init : reachable genAI init []
| reachable_send userMessage chatHistory targetLanguage this calls r this'
    calls' :
    reachable genAI this calls ->
    sendMessage genAI userMessage chatHistory targetLanguage this calls
      = (r, this', calls') ->
    reachable genAI this' calls'.

(** The condition reported when every model is rate limited. *)
Definition allModelsRateLimited : HttpException :=
  {| response :=
       "All AI models are currently rate limited. Please try again later.";
     status := 429 |}.

(** Every request that finds all the models rate limited is answered with
    [allModelsRateLimited]. *)
Definition exhaustionReportedAsRateLimited : Prop :=
  forall (genAI : Provider) (userMessage : string)
         (chatHistory : option (list ChatMessage))
         (targetLanguage : option SupportedLanguage)
         (this : t) (calls : list Call) (errs : nat -> Error),
    (forall j, j < List.length GEMINI_MODELS ->
       rateLimitedAt GEMINI_MODELS genAI
         (fullPrompt userMessage (orElse chatHistory [])
            (orElse targetLanguage english))
         calls (currentModelIndex this) j (errs j)) ->
    exists this' calls',
      sendMessage genAI userMessage chatHistory targetLanguage this calls
      = (Throw allModelsRateLimited, this', calls').

(** What a turn contributes to the rendered history: a user turn gives a
    Student line, an assistant turn with a non-empty reply gives a Tutor
    line, any other turn gives nothing. *)
Definition turnLines (msg : ChatMessage) : list string :=
  match role msg with
  | user => ["Student: " ++ content msg]
  | assistant =>
      match data msg with
      | Some {| reply := Some (String c r) |} => ["Tutor: " ++ String c r]
      | _ => []
      end
  end.

(** What the prompt builder reads of a turn: the role, the content of a
    user turn, the reply of an assistant turn. *)
Definition essentialOf (msg : ChatMessage) : ChatMessage :=
  match role msg with
  | user => {| role := user; content := content msg; data := None |}
  | assistant =>
      {| role := assistant;
         content := EmptyString;
         data :=
           match data msg with
           | Some d =>
               Some {| original := None; correction := None;
                       correctionPronunciation := None; explanation := None;
                       reply := reply d; pronunciation := None |}
           | None => None
           end |}
  end.

(** The worked example that ends the system prompt of a profile. *)
Definition exampleResponse (config : LanguageConfig) : string :=
  String.concat nl [
    "{";
    "  " ++ dq ++ "original" ++ dq ++ ": " ++ dq ++ exampleOriginal config
      ++ dq ++ ",";
    "  " ++ dq ++ "correction" ++ dq ++ ": " ++ dq ++ exampleCorrection config
      ++ dq ++ ",";
    "  " ++ dq ++ "correctionPronunciation" ++ dq ++ ": " ++ dq
      ++ exampleCorrectionPronunciation config ++ dq ++ ",";
    "  " ++ dq ++ "explanation" ++ dq ++ ": " ++ dq
      ++ exampleExplanation config ++ dq ++ ",";
    "  " ++ dq ++ "reply" ++ dq ++ ": " ++ dq ++ exampleReply config
      ++ dq ++ ",";
    "  " ++ dq ++ "pronunciation" ++ dq ++ ": " ++ dq
      ++ examplePronunciation config ++ dq;
    "}"
  ].

(** The object that the worked example of a profile is meant to show. *)
Definition exampleObject (config : LanguageConfig) : JsValue :=
  JObject [
    ("original", JString (exampleOriginal config));
    ("correction", JString (exampleCorrection config));
    ("correctionPronunciation",
     JString (exampleCorrectionPronunciation config));
    ("explanation", JString (exampleExplanation config));
    ("reply", JString (exampleReply config));
    ("pronunciation", JString (examplePronunciation config))
  ].

(** The profiles whose example explanation quotes a word with the double
    quotation mark. *)
Definition quotesInExample (language : SupportedLanguage) : bool :=
  match language with
  | chinese | french | german | spanish => true
  | english | japanese | korean => false
  end.

(** The model of the last call of [calls] that the provider answered with a
    text, or [found] when it answered none; [before] are the calls made
    before [calls]. *)
Fixpoint lastAnswered (genAI : Provider) (before calls : list Call)
    (found : option string) : option string :=
  match calls with
  | [] => found
  | (modelName, prompt) :: rest =>
      lastAnswered genAI (before ++ [(modelName, prompt)])%list rest
        match genAI before modelName prompt with
        | inl _ => Some modelName
        | inr _ => found
        end
  end.

(** The optional line feed of a fence: [s] without a leading line feed. *)
Definition skipLineFeed (s : string) : string :=
  match s with
  | String "010" s' => s'
  | _ => s
  end.

(** Valid JSON whose one string value holds both kinds of fence. *)
Definition fencedReply : string :=
  "{" ++ dq ++ "reply" ++ dq ++ ":" ++ dq
  ++ "Wrap it in ```json and ``` marks" ++ dq ++ "}".

(** Whenever the last ten turns render no line, the history part of the
    prompt is the marker of a conversation start. *)
Definition markerWhenNothingRendered : Prop :=
  forall chatHistory : list ChatMessage,
    flat_map turnLines (sliceLast 10 chatHistory) = [] ->
    historyContext chatHistory = "This is the start of the conversation.".

(** An assistant turn that carries no data, hence no reply. *)
Definition silentTurn : ChatMessage :=
  {| role := assistant; content := "..."; data := None |}.

(** A user turn saying [n]. *)
Definition userTurn (n : nat) : ChatMessage :=
  {| role := user; content := numberToString n; data := None |}.

(** The property [key] of [v] is a string (so neither absent nor null). *)
Definition isStringProperty (key : string) (v : JsValue) : bool :=
  match v with
  | JObject properties =>
      match getProperty key properties with
      | Some (JString _) => true
      | _ => false
      end
  | _ => false
  end.

(** [v] has the six fields of a TutorResponse, each a string. *)
Definition isTutorResponse (v : JsValue) : bool :=
  isStringProperty "original" v &&
  isStringProperty "correction" v &&
  isStringProperty "correctionPronunciation" v &&
  isStringProperty "explanation" v &&
  isStringProperty "reply" v &&
  isStringProperty "pronunciation" v.

(** Whatever the model wrote, the data handed back is a TutorResponse. *)
Definition dataAlwaysTutorResponse : Prop :=
  forall userMessage text : string,
    isTutorResponse (ChatResponseDto.data (parseResponse userMessage text))
    = true.

(** A model output that is valid JSON with a null field. *)
Definition nullCorrection : string :=
  "{" ++ dq ++ "original" ++ dq ++ ":" ++ dq ++ "hi" ++ dq ++ ","
  ++ dq ++ "correction" ++ dq ++ ":null,"
  ++ dq ++ "correctionPronunciation" ++ dq ++ ":" ++ dq ++ "/hai/" ++ dq ++ ","
  ++ dq ++ "explanation" ++ dq ++ ":" ++ dq ++ dq ++ ","
  ++ dq ++ "reply" ++ dq ++ ":" ++ dq ++ "Hello!" ++ dq ++ ","
  ++ dq ++ "pronunciation" ++ dq ++ ":" ++ dq ++ "/helou/" ++ dq ++ "}".

(** *** Providers for concrete runs *)

Definition tooManyRequests : Error :=
  new_Error "[429 Too Many Requests] Resource has been exhausted".

(** The first two models are rate limited, the third one answers. *)
Definition thirdModelAnswers : Provider :=
  fun _ modelName _ =>
    if String.eqb modelName "gemini-2.0-flash" then inl "{}"
    else inr tooManyRequests.

Definition badRequest : Error :=
  new_Error "[400 Bad Request] Invalid JSON payload received".

(** The first model is rate limited, the second rejects the request. *)
Definition secondModelRejects : Provider :=
  fun _ modelName _ =>
    if String.eqb modelName "gemini-3-flash-preview" then inr tooManyRequests
    else inr badRequest.


(** Every model is rate limited. *)
Definition allRateLimited : Provider :=
  fun _ _ _ => inr tooManyRequests.

Definition keyQuotaExceeded : Error :=
  new_Error "[429 Too Many Requests] Quota exceeded for this API_KEY".

(** Every model is rate limited, and says so naming the API key. *)
Definition allKeyQuotaExceeded : Provider :=
  fun _ _ _ => inr keyQuotaExceeded.

End Vocabulary.

(** * Proofs *)

(** ** Strings *)
Module StringFacts.

Lemma append_nil_r (s : string) : s ++ EmptyString = s.
Proof. induction s as [|c s IH]; simpl; [reflexivity | now rewrite IH]. Qed.

Lemma append_assoc (a b c : string) : (a ++ b) ++ c = a ++ b ++ c.
Proof. induction a as [|x a IH]; simpl; [reflexivity | now rewrite IH]. Qed.

Lemma prefix_iff (p s : string) :
  prefix p s = true <-> exists post, s = p ++ post.
Proof.
  revert s; induction p as [|c p IH]; intros s.
  - split; [intros _; now exists s | intros _; destruct s; reflexivity].
  - destruct s as [|d s]; simpl.
    + split; [discriminate | intros [post H]; discriminate].
    + destruct (ascii_dec c d) as [->|Hne].
      * rewrite IH. split; intros [post H]; exists post.
        -- now subst.
        -- now inversion H.
      * split; [discriminate | intros [post H]; inversion H; congruence].
Qed.

Lemma includes_nil (p : string) :
  includes EmptyString p = prefix p EmptyString.
Proof. unfold includes. apply orb_false_r. Qed.

Lemma includes_cons (c : ascii) (s p : string) :
  includes (String c s) p = prefix p (String c s) || includes s p.
Proof. reflexivity. Qed.

Lemma includes_iff (s p : string) :
  includes s p = true <-> exists pre post, s = pre ++ p ++ post.
Proof.
  induction s as [|c s IH].
  - rewrite includes_nil, prefix_iff. split.
    + intros [post H]. now exists EmptyString, post.
    + intros [pre [post H]]. destruct pre; [now exists post | discriminate].
  - rewrite includes_cons, orb_true_iff, prefix_iff, IH. split.
    + intros [[post H] | [pre [post H]]].
      * now exists EmptyString, post.
      * exists (String c pre), post. simpl. now rewrite H.
    + intros [pre [post H]]. destruct pre as [|d pre]; simpl in H.
      * left. now exists post.
      * right. inversion H. now exists pre, post.
Qed.

Lemma includes_false_infix (a s b p : string) :
  includes (a ++ s ++ b) p = false -> includes s p = false.
Proof.
  intros H. destruct (includes s p) eqn:E; [|reflexivity].
  apply includes_iff in E. destruct E as [pre [post E]].
  assert (includes (a ++ s ++ b) p = true) as C; [|congruence].
  apply includes_iff. exists (a ++ pre), (post ++ b).
  subst s. now rewrite !append_assoc.
Qed.

Lemma toLowerCase_app (a b : string) :
  toLowerCase (a ++ b) = toLowerCase a ++ toLowerCase b.
Proof. induction a as [|c a IH]; simpl; [reflexivity | now rewrite IH]. Qed.

Lemma toLowerCase_split (s x y : string) :
  toLowerCase s = x ++ y ->
  exists a b, s = a ++ b /\ toLowerCase a = x /\ toLowerCase b = y.
Proof.
  revert s; induction x as [|c x IH]; intros s H; simpl in H.
  - now exists EmptyString, s.
  - destruct s as [|d s]; [discriminate|]. simpl in H. inversion H as [[Hc Hs]].
    destruct (IH _ Hs) as [a [b [-> [Ha Hb]]]].
    exists (String d a), b. simpl. now rewrite Ha.
Qed.

(** [s.toLowerCase().includes(p)] finds the occurrences of [p] in [s] up to
    the case of ASCII letters. *)
Lemma includes_toLowerCase_iff (s p : string) :
  includes (toLowerCase s) p = true <->
  exists pre mid post, s = pre ++ mid ++ post /\ toLowerCase mid = p.
Proof.
  rewrite includes_iff. split.
  - intros [pre' [post' H]].
    destruct (toLowerCase_split _ _ _ H) as [pre [r [-> [_ Hr]]]].
    destruct (toLowerCase_split _ _ _ Hr) as [mid [post [-> [Hm _]]]].
    now exists pre, mid, post.
  - intros [pre [mid [post [-> Hm]]]].
    exists (toLowerCase pre), (toLowerCase post).
    now rewrite !toLowerCase_app, Hm.
Qed.

End StringFacts.

(** ** The rate-limit classifier *)
Module Classifier.
Import ChatService Vocabulary StringFacts.

(** C8. An error is classified as a rate-limit error if and only if it has a
    message that contains, ignoring letter case, one of "429",
    "too many requests", "resource exhausted", "quota", "rate limit". *)
Theorem isRateLimitError_iff (error : Error) :
  isRateLimitError error = true <->
  exists msg marker,
    Js.message error = Some msg /\
    In marker [ "429"; "too many requests"; "resource exhausted"; "quota";
                "rate limit" ] /\
    containsIgnoringCase msg marker.
Proof.
  unfold isRateLimitError, containsIgnoringCase.
  destruct (Js.message error) as [m|].
  - rewrite !orb_true_iff, !includes_toLowerCase_iff. split.
    + intros H. exists m.
      destruct H as [[[[H|H]|H]|H]|H];
        [exists "429" | exists "too many requests"
         | exists "resource exhausted" | exists "quota" | exists "rate limit"];
        (split; [reflexivity | split; [simpl; tauto | exact H]]).
    + intros [msg [marker [Hm [Hin H]]]]. injection Hm as <-.
      simpl in Hin.
      destruct Hin as [<-|[<-|[<-|[<-|[<-|[]]]]]]; simpl in H; tauto.
  - split; [discriminate | intros [msg [marker [H _]]]; discriminate].
Qed.

Lemma isRateLimitError_iff_witness :
  isRateLimitError tooManyRequests = true.
Proof.
  apply (proj2 (isRateLimitError_iff tooManyRequests)).
  exists "[429 Too Many Requests] Resource has been exhausted",
    "too many requests".
  split; [reflexivity|]. split; [simpl; tauto|].
  exists "[429 ", "Too Many Requests", "] Resource has been exhausted".
  split; reflexivity.
Defined.

End Classifier.

(** ** The fallback loop *)
Module Gateway.
Import ChatService Vocabulary.

Section Loop.

Variable models : list string.
Variable genAI : Provider.
Variable prompt : string.

Lemma attempts_snoc (start i k : nat) :
  attempts models prompt start i (S k) = (attempts models prompt start i k ++ [attempt models prompt start (i + k)])%list.
Proof. unfold attempts. now rewrite seq_S, map_app. Qed.

Lemma attempts_cons (start i k : nat) :
  attempts models prompt start i (S k) = attempt models prompt start i :: attempts models prompt start (S i) k.
Proof. reflexivity. Qed.

(** While the provider answers with rate-limit errors the loop goes on,
    remembering the last one. *)
Lemma fallbackLoop_skips (start : nat) (errs : nat -> Error) (m k i : nat)
      (lastError : option Error) (this : t) (calls : list Call) :
  (forall j, j < k ->
     genAI (calls ++ attempts models prompt start i j)%list
           (modelAt models ((start + (i + j)) mod List.length models)) prompt
       = inr (errs (i + j)) /\
     isRateLimitError (errs (i + j)) = true) ->
  fallbackLoop models genAI prompt start (seq i (k + m)) lastError this calls
  = fallbackLoop models genAI prompt start (seq (i + k) m)
      (match k with 0 => lastError | S k' => Some (errs (i + k')) end)
      this (calls ++ attempts models prompt start i k)%list.
Proof.
  revert i lastError calls.
  induction k as [|k IH]; intros i lastError calls H.
  - unfold attempts. simpl. rewrite Nat.add_0_r, app_nil_r. reflexivity.
  - assert (0 < S k) as Hk by lia. destruct (H 0 Hk) as [H0 R0].
    rewrite Nat.add_0_r in H0, R0. unfold attempts in H0. simpl in H0.
    rewrite app_nil_r in H0.
    simpl. rewrite H0, R0.
    rewrite IH.
    + rewrite attempts_cons.
      replace (calls ++ attempt models prompt start i :: attempts models prompt start (S i) k)%list
        with ((calls ++ [attempt models prompt start i]) ++ attempts models prompt start (S i) k)%list
        by now rewrite <- app_assoc.
      replace (i + S k) with (S i + k) by lia.
      destruct k as [|k']; [rewrite !Nat.add_0_r; reflexivity|].
      replace (i + S k') with (S i + k') by lia. reflexivity.
    + intros j Hj. assert (S j < S k) as Hj' by lia.
      specialize (H (S j) Hj').
      rewrite attempts_cons in H.
      replace (calls ++ attempt models prompt start i :: attempts models prompt start (S i) j)%list
        with ((calls ++ [attempt models prompt start i]) ++ attempts models prompt start (S i) j)%list
        in H by now rewrite <- app_assoc.
      now replace (i + S j) with (S i + j) in H by lia.
Qed.

(** What any run of the loop does to the cursor: a result moves it to the
    model called last, the one that answered; an error leaves the service
    as it was. *)
Lemma fallbackLoop_cursor (start : nat) (todo : list nat)
      (lastError : option Error) (this : t) (calls : list Call) :
  match fallbackLoop models genAI prompt start todo lastError this calls with
  | (Return text, this', calls') =>
      exists i before,
        In i todo /\
        currentModelIndex this' = (start + i) mod List.length models /\
        calls' = (before ++ [(modelAt models (currentModelIndex this'),
                              prompt)])%list /\
        genAI before (modelAt models (currentModelIndex this')) prompt
          = inl text
  | (Throw _, this', _) => this' = this
  end.
Proof.
  revert lastError calls.
  induction todo as [|i todo IH]; intros lastError calls; simpl.
  - reflexivity.
  - destruct (genAI calls _ prompt) as [text|error] eqn:E.
    + exists i, calls. simpl. auto.
    + destruct (isRateLimitError error); [|reflexivity].
      specialize (IH (Some error)
        (calls ++ [(modelAt models ((start + i) mod List.length models),
                    prompt)])%list).
      destruct (fallbackLoop _ _ _ _ _ _ _ _) as [[[text|e] this'] calls'].
      * destruct IH as [i' [before [Hin H]]]. exists i', before. auto.
      * exact IH.
Qed.

(** The loop only ever adds calls. *)
Lemma fallbackLoop_extends (start : nat) (todo : list nat)
      (lastError : option Error) (this : t) (calls : list Call) :
  exists after,
    snd (fallbackLoop models genAI prompt start todo lastError this calls)
    = (calls ++ after)%list.
Proof.
  revert lastError calls.
  induction todo as [|i todo IH]; intros lastError calls; simpl.
  - exists []. now rewrite app_nil_r.
  - destruct (genAI calls _ prompt) as [text|error].
    + now eexists.
    + destruct (isRateLimitError error); [|now eexists].
      destruct (IH (Some error)
        (calls ++ [(modelAt models ((start + i) mod List.length models),
                    prompt)])%list) as [after H].
      rewrite H, <- app_assoc. now eexists.
Qed.

(** The loop always makes a first call when there is a model to call. *)
Lemma fallbackLoop_first_call (start i : nat) (todo : list nat)
      (lastError : option Error) (this : t) (calls : list Call) :
  exists after,
    snd (fallbackLoop models genAI prompt start (i :: todo) lastError
           this calls)
    = (calls ++ attempt models prompt start i :: after)%list.
Proof.
  simpl. destruct (genAI calls _ prompt) as [text|error].
  - now exists [].
  - destruct (isRateLimitError error); [|now exists []].
    destruct (fallbackLoop_extends start todo (Some error) this
      (calls ++ [(modelAt models ((start + i) mod List.length models),
                  prompt)])%list) as [after H].
    rewrite H, <- app_assoc. now exists after.
Qed.

End Loop.

(** C1. The loop calls the models at indices (start + i) mod n for
    i = 0, 1, ... in turn, where start is the cursor: when the first k calls
    fail with rate-limit errors and the next one succeeds, exactly those
    k + 1 calls are made, the text of the last is returned and the cursor is
    set to its index; whatever is asked next, the first model called is the
    one under the cursor. *)
Theorem fallback_returns_first_success
    (models : list string) (genAI : Provider) (prompt : string)
    (this : t) (calls : list Call)
    (k : nat) (errs : nat -> Error) (text : string) :
  k < List.length models ->
  (forall j, j < k ->
     rateLimitedAt models genAI prompt calls (currentModelIndex this) j
       (errs j)) ->
  answer models genAI prompt calls (currentModelIndex this) k = inl text ->
  let idx := (currentModelIndex this + k) mod List.length models in
  let calls' :=
    (calls ++ attempts models prompt (currentModelIndex this) 0 (S k))%list in
  generateWithFallbackOn models genAI prompt this calls
    = (Return text, {| currentModelIndex := idx |}, calls') /\
  forall (genAI' : Provider) (prompt' : string),
    exists after,
      snd (generateWithFallbackOn models genAI' prompt'
             {| currentModelIndex := idx |} calls')
      = (calls' ++ (modelAt models idx, prompt') :: after)%list.
Proof.
  intros Hk Hfail Hok idx calls'. split.
  - unfold generateWithFallbackOn.
    replace (List.length models) with (k + S (List.length models - S k))
      at 1 by lia.
    rewrite (fallbackLoop_skips models genAI prompt _ errs).
    + unfold answer in Hok. simpl. rewrite Hok.
      unfold calls'. now rewrite attempts_snoc, app_assoc.
    + intros j Hj. exact (Hfail j Hj).
  - intros genAI' prompt'. unfold generateWithFallbackOn.
    destruct (List.length models) as [|n] eqn:En; [lia|].
    rewrite <- cons_seq.
    destruct (fallbackLoop_first_call models genAI' prompt' idx 0
                (seq 1 n) None {| currentModelIndex := idx |} calls')
      as [after H].
    exists after. simpl currentModelIndex. rewrite H. unfold attempt.
    rewrite Nat.add_0_r, En, Nat.mod_small; [reflexivity|].
    unfold idx. apply Nat.mod_upper_bound. lia.
Qed.

Lemma fallback_returns_first_success_witness :
  generateWithFallback thirdModelAnswers "p" init []
    = (Return "{}", {| currentModelIndex := 2 |},
       [ ("gemini-3-flash-preview", "p"); ("gemini-2.5-flash", "p");
         ("gemini-2.0-flash", "p") ]) /\
  exists after,
    snd (generateWithFallback thirdModelAnswers "q"
           {| currentModelIndex := 2 |}
           [ ("gemini-3-flash-preview", "p"); ("gemini-2.5-flash", "p");
             ("gemini-2.0-flash", "p") ])
    = ([ ("gemini-3-flash-preview", "p"); ("gemini-2.5-flash", "p");
         ("gemini-2.0-flash", "p") ]
       ++ ("gemini-2.0-flash", "q") :: after)%list.
Proof.
  assert (2 < List.length GEMINI_MODELS) as Hk by (simpl; lia).
  assert (forall j, j < 2 ->
            rateLimitedAt GEMINI_MODELS thirdModelAnswers "p" []
              (currentModelIndex init) j tooManyRequests) as Hfail.
  { intros [|[|j]] Hj; [split; reflexivity | split; reflexivity | lia]. }
  destruct (fallback_returns_first_success GEMINI_MODELS thirdModelAnswers
              "p" init [] 2 (fun _ => tooManyRequests) "{}" Hk Hfail eq_refl)
    as [Hrun Hnext].
  split; [exact Hrun | exact (Hnext thirdModelAnswers "q")].
Defined.

(** C3. When the first k calls fail with rate-limit errors and the next one
    fails with an error that is not a rate-limit error, exactly those k + 1
    calls are made, the service is left as it was and that very error is
    thrown. *)
Theorem fallback_aborts_on_other_error
    (models : list string) (genAI : Provider) (prompt : string)
    (this : t) (calls : list Call)
    (k : nat) (errs : nat -> Error) (error : Error) :
  k < List.length models ->
  (forall j, j < k ->
     rateLimitedAt models genAI prompt calls (currentModelIndex this) j
       (errs j)) ->
  answer models genAI prompt calls (currentModelIndex this) k = inr error ->
  isRateLimitError error = false ->
  generateWithFallbackOn models genAI prompt this calls
    = (Throw error, this,
       (calls ++ attempts models prompt (currentModelIndex this) 0 (S k))%list).
Proof.
  intros Hk Hfail Herr Hother.
  unfold generateWithFallbackOn.
  replace (List.length models) with (k + S (List.length models - S k))
    at 1 by lia.
  rewrite (fallbackLoop_skips models genAI prompt _ errs).
  - unfold answer in Herr. simpl. rewrite Herr, Hother.
    now rewrite attempts_snoc, app_assoc.
  - intros j Hj. exact (Hfail j Hj).
Qed.

Lemma fallback_aborts_on_other_error_witness :
  generateWithFallback secondModelRejects "p" init []
    = (Throw badRequest, init,
       [ ("gemini-3-flash-preview", "p"); ("gemini-2.5-flash", "p") ]).
Proof.
  assert (1 < List.length GEMINI_MODELS) as Hk by (simpl; lia).
  assert (forall j, j < 1 ->
            rateLimitedAt GEMINI_MODELS secondModelRejects "p" []
              (currentModelIndex init) j tooManyRequests) as Hfail.
  { intros [|j] Hj; [split; reflexivity | lia]. }
  exact (fallback_aborts_on_other_error GEMINI_MODELS secondModelRejects
           "p" init [] 1 (fun _ => tooManyRequests) badRequest Hk Hfail
           eq_refl eq_refl).
Defined.

(** When every call fails with a rate-limit error the loop runs to its end
    and the last of these errors is thrown. *)
Lemma fallback_exhausted
    (models : list string) (genAI : Provider) (prompt : string)
    (this : t) (calls : list Call) (errs : nat -> Error) :
  0 < List.length models ->
  (forall j, j < List.length models ->
     rateLimitedAt models genAI prompt calls (currentModelIndex this) j
       (errs j)) ->
  generateWithFallbackOn models genAI prompt this calls
    = (Throw (errs (List.length models - 1)), this,
       (calls ++ attempts models prompt (currentModelIndex this) 0
                   (List.length models))%list).
Proof.
  intros Hn Hfail.
  unfold generateWithFallbackOn.
  replace (List.length models) with (List.length models + 0) at 1 by lia.
  rewrite (fallbackLoop_skips models genAI prompt _ errs).
  - simpl. destruct (List.length models) as [|n]; [lia|].
    simpl. now rewrite Nat.sub_0_r.
  - intros j Hj. exact (Hfail j Hj).
Qed.

(** A rate-limit error has a message. *)
Lemma isRateLimitError_message (error : Error) :
  isRateLimitError error = true -> exists msg, Js.message error = Some msg.
Proof.
  unfold isRateLimitError. destruct (Js.message error) as [m|].
  - intros _. now exists m.
  - discriminate.
Qed.

(** C2 (as amended). When all the models fail with rate-limit errors the
    loop throws one error, the last of them, after one call to each model;
    the caller is told that all models are rate limited (status 429), unless
    the message of that last error contains API_KEY, in which case the
    caller is told of an invalid API key configuration (status 500). *)
Theorem exhaustion_reported
    (genAI : Provider) (userMessage : string)
    (chatHistory : option (list ChatMessage))
    (targetLanguage : option SupportedLanguage)
    (this : t) (calls : list Call) (errs : nat -> Error) :
  let prompt :=
    fullPrompt userMessage (orElse chatHistory [])
      (orElse targetLanguage english) in
  let n := List.length GEMINI_MODELS in
  let calls' :=
    (calls ++ attempts GEMINI_MODELS prompt (currentModelIndex this) 0 n)%list
  in
  (forall j, j < n ->
     rateLimitedAt GEMINI_MODELS genAI prompt calls (currentModelIndex this)
       j (errs j)) ->
  generateWithFallback genAI prompt this calls
    = (Throw (errs (n - 1)), this, calls') /\
  exists msg,
    Js.message (errs (n - 1)) = Some msg /\
    sendMessage genAI userMessage chatHistory targetLanguage this calls
    = (Throw (if includes msg "API_KEY"
              then {| response := "Invalid API key configuration";
                      status := 500 |}
              else allModelsRateLimited),
       this, calls').
Proof.
  intros prompt n calls' Hfail.
  assert (generateWithFallback genAI prompt this calls
          = (Throw (errs (n - 1)), this, calls')) as Hrun.
  { apply fallback_exhausted; [simpl; lia | exact Hfail]. }
  split; [exact Hrun|].
  assert (n - 1 < n) as Hlast by (unfold n; simpl; lia).
  destruct (Hfail _ Hlast) as [_ Hrate].
  destruct (isRateLimitError_message _ Hrate) as [msg Hmsg].
  exists msg. split; [exact Hmsg|].
  unfold sendMessage. fold prompt. rewrite Hrun.
  unfold toHttpException. rewrite Hmsg, Hrate. reflexivity.
Qed.

Lemma exhaustion_reported_witness :
  generateWithFallback allRateLimited
    (fullPrompt "hi" [] english) init []
  = (Throw tooManyRequests, init,
     attempts GEMINI_MODELS (fullPrompt "hi" [] english) 0 0 3) /\
  exists msg,
    Js.message tooManyRequests = Some msg /\
    sendMessage allRateLimited "hi" None None init []
    = (Throw (if includes msg "API_KEY"
              then {| response := "Invalid API key configuration";
                      status := 500 |}
              else allModelsRateLimited),
       init,
       attempts GEMINI_MODELS (fullPrompt "hi" [] english) 0 0 3).
Proof.
  apply (exhaustion_reported allRateLimited "hi" None None init []
           (fun _ => tooManyRequests)).
  intros j Hj. split; reflexivity.
Defined.

(** C2, as first stated, fails: a last rate-limit error whose message names
    the API key is reported as an invalid API key configuration. *)
Lemma exhaustion_naming_API_KEY : ~ exhaustionReportedAsRateLimited.
Proof.
  intros H.
  destruct (H allKeyQuotaExceeded "hi" None None init []
              (fun _ => keyQuotaExceeded)) as [this' [calls' E]].
  - intros j Hj. split; reflexivity.
  - apply (f_equal (fun x => fst (fst x))) in E. vm_compute in E.
    discriminate E.
Qed.

(** What the service does in that run: one call to each model, then the
    invalid-key condition. *)
Example invalid_key_run :
  sendMessage allKeyQuotaExceeded "hi" None None init []
  = (Throw {| response := "Invalid API key configuration"; status := 500 |},
     init,
     [ ("gemini-3-flash-preview", fullPrompt "hi" [] english);
       ("gemini-2.5-flash", fullPrompt "hi" [] english);
       ("gemini-2.0-flash", fullPrompt "hi" [] english) ]).
Proof. reflexivity. Qed.

(** C7. The list of models is not empty; the cursor starts at 0; a run of
    the fallback loop that returns leaves the cursor on a valid index, that
    of the model called last, which gave the returned text; a run that
    throws leaves the service as it was; and in every state the gateway can
    reach the cursor is a valid index. *)
Theorem cursor_invariant :
  GEMINI_MODELS <> [] /\
  currentModelIndex init = 0 /\
  (forall (genAI : Provider) (prompt : string) (this : t) (calls : list Call),
     match generateWithFallback genAI prompt this calls with
     | (Return text, this', calls') =>
         currentModelIndex this' < List.length GEMINI_MODELS /\
         exists before,
           calls' = (before ++ [(modelAt GEMINI_MODELS
                                   (currentModelIndex this'), prompt)])%list /\
           genAI before (modelAt GEMINI_MODELS (currentModelIndex this'))
                 prompt = inl text
     | (Throw _, this', _) => this' = this
     end) /\
  (forall (genAI : Provider) (this : t) (calls : list Call),
     reachable genAI this calls ->
     currentModelIndex this < List.length GEMINI_MODELS).
Proof.
  assert (forall genAI prompt this calls,
            match generateWithFallback genAI prompt this calls with
            | (Return text, this', calls') =>
                currentModelIndex this' < List.length GEMINI_MODELS /\
                exists before,
                  calls' = (before ++ [(modelAt GEMINI_MODELS
                              (currentModelIndex this'), prompt)])%list /\
                  genAI before
                    (modelAt GEMINI_MODELS (currentModelIndex this')) prompt
                  = inl text
            | (Throw _, this', _) => this' = this
            end) as Hstep.
  { intros genAI prompt this calls.
    unfold generateWithFallback, generateWithFallbackOn.
    pose proof (fallbackLoop_cursor GEMINI_MODELS genAI prompt
                  (currentModelIndex this)
                  (seq 0 (List.length GEMINI_MODELS)) None this calls) as H.
    destruct (fallbackLoop _ _ _ _ _ _ _ _) as [[[text|e] this'] calls'].
    - destruct H as [i [before [_ [Hidx [Hcalls Hans]]]]]. split.
      + rewrite Hidx. apply Nat.mod_upper_bound. discriminate.
      + now exists before.
    - exact H. }
  split; [discriminate|]. split; [reflexivity|]. split; [exact Hstep|].
  intros genAI this calls Hreach.
  induction Hreach as [|userMessage chatHistory targetLanguage this calls r
                        this' calls' _ IH Hsend].
  - simpl. lia.
  - unfold sendMessage in Hsend.
    pose proof (Hstep genAI
                  (fullPrompt userMessage (orElse chatHistory [])
                     (orElse targetLanguage english)) this calls) as H.
    destruct (generateWithFallback _ _ _ _) as [[[text|e] this1] calls1];
      injection Hsend as _ <- _.
    + exact (proj1 H).
    + now subst this1.
Qed.

Lemma cursor_invariant_witness :
  currentModelIndex
    (snd (fst (sendMessage thirdModelAnswers "hi" None None init [])))
  < List.length GEMINI_MODELS.
Proof.
  apply (proj2 (proj2 (proj2 cursor_invariant)) thirdModelAnswers _
           (snd (sendMessage thirdModelAnswers "hi" None None init []))).
  apply (reachable_send thirdModelAnswers "hi" None None init []
           (fst (fst (sendMessage thirdModelAnswers "hi" None None init [])))).
  - apply reachable_init.
  - destruct (sendMessage thirdModelAnswers "hi" None None init [])
      as [[r this'] calls']. reflexivity.
Defined.

End Gateway.

(** ** The response normalizer and the default language *)
Module Normalizer.
Import ChatService Vocabulary.



(** C5 (as amended). When [JSON.parse] rejects the cleaned text, the six
    fields of the data are strings, none of them null; when it accepts it,
    the data are the parsed value as it is, so that their fields are strings
    exactly when the model wrote them so. *)
Theorem data_strings_on_fallback_only (userMessage text : string) :
  (JSON_parse (cleanedText text) = None ->
   isTutorResponse (ChatResponseDto.data (parseResponse userMessage text))
   = true) /\
  (forall v, JSON_parse (cleanedText text) = Some v ->
   ChatResponseDto.data (parseResponse userMessage text) = v).
Proof.
  unfold parseResponse.
  destruct (JSON_parse (cleanedText text)) as [v|]; split.
  - discriminate.
  - now intros w [= <-].
  - reflexivity.
  - discriminate.
Qed.

Lemma data_strings_on_fallback_only_witness :
  isTutorResponse
    (ChatResponseDto.data (parseResponse "hi" "sorry I can't help"))
  = true /\
  ChatResponseDto.data (parseResponse "hi" "[null]") = JArray [JNull].
Proof.
  split.
  - exact (proj1 (data_strings_on_fallback_only "hi" "sorry I can't help")
             eq_refl).
  - exact (proj2 (data_strings_on_fallback_only "hi" "[null]")
             (JArray [JNull]) eq_refl).
Defined.

(** C5, as first stated, fails: a null that the model writes into a field
    reaches the caller. *)
Lemma null_field_reaches_caller : ~ dataAlwaysTutorResponse.
Proof.
  intros H. specialize (H "hi" nullCorrection).
  vm_compute in H. discriminate H.
Qed.

(** What the normalizer returns for that output. *)
Example null_field_run :
  parseResponse "hi" nullCorrection
  = {| ChatResponseDto.success := true;
       ChatResponseDto.data :=
         JObject [ ("original", JString "hi");
                   ("correction", JNull);
                   ("correctionPronunciation", JString "/hai/");
                   ("explanation", JString EmptyString);
                   ("reply", JString "Hello!");
                   ("pronunciation", JString "/helou/") ] |}.
Proof. reflexivity. Qed.

(** The fenced JSON of the kind the models usually send is parsed to the
    object it holds. *)
Example fenced_json_run :
  parseResponse "hi"
    ("```json" ++ nl ++ "{" ++ dq ++ "original" ++ dq ++ ":" ++ dq ++ "hi"
     ++ dq ++ "," ++ dq ++ "correction" ++ dq ++ ":" ++ dq ++ "hi" ++ dq
     ++ "}" ++ nl ++ "```")
  = {| ChatResponseDto.success := true;
       ChatResponseDto.data :=
         JObject [ ("original", JString "hi");
                   ("correction", JString "hi") ] |}.
Proof. reflexivity. Qed.

(** C9. Leaving the target language out is the same as passing english: the
    controller and the service then make the same calls with the same
    prompt, and end with the same result or the same error. *)
Theorem default_language_is_english
    (genAI : Provider) (userMessage : string)
    (history : option (list ChatMessage))
    (chatService : ChatService.t) (calls : list Call) :
  ChatController.sendMessage genAI
    {| message := userMessage; targetLanguage := None;
       chatHistory := history |} chatService calls
  = ChatController.sendMessage genAI
      {| message := userMessage; targetLanguage := Some english;
         chatHistory := history |} chatService calls /\
  ChatService.sendMessage genAI userMessage history None chatService calls
  = ChatService.sendMessage genAI userMessage history (Some english)
      chatService calls.
Proof. split; reflexivity. Qed.

End Normalizer.

(** ** The history window of the prompt builder *)
Module PromptBuilder.
Import ChatService Vocabulary.

Lemma sliceLast_suffix {A : Type} (n : nat) (l : list A) :
  l = (firstn (List.length l - n) l ++ sliceLast n l)%list.
Proof. unfold sliceLast. now rewrite firstn_skipn. Qed.

Lemma sliceLast_length {A : Type} (n : nat) (l : list A) :
  List.length (sliceLast n l) = Nat.min n (List.length l).
Proof. unfold sliceLast. rewrite length_skipn. lia. Qed.

(** Mapping the turns to strings and dropping the empty ones leaves the
    lines of the turns. *)
Lemma rendered_lines (l : list ChatMessage) :
  filter truthy (map renderTurn l) = flat_map turnLines l.
Proof.
  induction l as [|msg l IH]; [reflexivity|].
  change (filter truthy (map renderTurn (msg :: l)))
    with (if truthy (renderTurn msg)
          then renderTurn msg :: filter truthy (map renderTurn l)
          else filter truthy (map renderTurn l)).
  change (flat_map turnLines (msg :: l))
    with (turnLines msg ++ flat_map turnLines l)%list.
  rewrite IH. unfold renderTurn, turnLines.
  destruct (role msg); [reflexivity|].
  destruct (data msg) as [[o c cp e [[|ch r]|] p]|]; reflexivity.
Qed.

(** C6 (as amended). The prompt is the system prompt, the heading of the
    conversation history, the rendered history, and the utterance as a last
    Student line before the request for a JSON answer.  The rendered history
    depends on the last ten turns only: the turns before them are dropped,
    and two histories with the same last ten turns give the same prompt.
    When the history is empty the rendered history is the marker of a
    conversation start; otherwise it is made of the lines of the last ten
    turns, in their order, one per line: Student and the content for a user
    turn, Tutor and the reply for an assistant turn whose reply is not
    empty, nothing for any other turn; so when turns are kept but none of
    them gives a line, it is the empty string and not the marker. *)
Theorem history_window
    (userMessage : string) (chatHistory : list ChatMessage)
    (language : SupportedLanguage) :
  let recent := sliceLast 10 chatHistory in
  let rendered :=
    match recent with
    | [] => "This is the start of the conversation."
    | _ :: _ => String.concat nl (flat_map turnLines recent)
    end in
  (exists earlier, chatHistory = (earlier ++ recent)%list) /\
  List.length recent = Nat.min 10 (List.length chatHistory) /\
  (recent = [] <-> chatHistory = []) /\
  historyContext chatHistory = rendered /\
  fullPrompt userMessage chatHistory language
  = getSystemPrompt language ++ nl ++ nl ++ "Conversation History:" ++ nl
    ++ rendered ++ nl ++ nl ++ "Student: " ++ userMessage ++ nl ++ nl
    ++ "Tutor (respond in JSON format):" /\
  (forall other : list ChatMessage,
     sliceLast 10 other = recent ->
     historyContext other = historyContext chatHistory /\
     fullPrompt userMessage other language
     = fullPrompt userMessage chatHistory language) /\
  (chatHistory <> [] ->
   flat_map turnLines recent = [] ->
   historyContext chatHistory = EmptyString).
Proof.
  intros recent rendered.
  assert (forall h, historyContext h
          = match sliceLast 10 h with
            | [] => "This is the start of the conversation."
            | _ :: _ => String.concat nl (flat_map turnLines (sliceLast 10 h))
            end) as Hctx.
  { intros h. unfold historyContext. rewrite rendered_lines.
    now destruct (sliceLast 10 h). }
  assert (recent = [] <-> chatHistory = []) as Hempty.
  { pose proof (sliceLast_length 10 chatHistory) as L. fold recent in L.
    split.
    - intros E. rewrite E in L. simpl in L.
      destruct chatHistory; [reflexivity | simpl in L; lia].
    - intros E. unfold recent. now rewrite E. }
  split; [eexists; apply sliceLast_suffix|].
  split; [apply sliceLast_length|].
  split; [exact Hempty|].
  split; [apply Hctx|].
  split; [unfold fullPrompt; rewrite Hctx; reflexivity|].
  split.
  - intros other Hsame.
    assert (historyContext other = historyContext chatHistory) as E.
    { rewrite (Hctx other), (Hctx chatHistory). fold recent.
      now rewrite Hsame. }
    split; [exact E|]. unfold fullPrompt. now rewrite E.
  - intros Hne Hnone. rewrite Hctx. fold recent.
    destruct recent as [|msg recent'] eqn:E.
    + elim Hne. now apply Hempty.
    + rewrite Hnone. reflexivity.
Qed.

Lemma history_window_witness :
  historyContext (map userTurn (seq 1 15))
  = "Student: 6" ++ nl ++ "Student: 7" ++ nl ++ "Student: 8" ++ nl
    ++ "Student: 9" ++ nl ++ "Student: 10" ++ nl ++ "Student: 11" ++ nl
    ++ "Student: 12" ++ nl ++ "Student: 13" ++ nl ++ "Student: 14" ++ nl
    ++ "Student: 15" /\
  historyContext (map userTurn (seq 6 10))
  = historyContext (map userTurn (seq 1 15)) /\
  fullPrompt "hi" (map userTurn (seq 6 10)) korean
  = fullPrompt "hi" (map userTurn (seq 1 15)) korean /\
  historyContext [silentTurn; silentTurn] = EmptyString.
Proof.
  destruct (history_window "hi" (map userTurn (seq 1 15)) korean)
    as [_ [_ [_ [Hctx [_ [Hsame _]]]]]].
  split; [rewrite Hctx; reflexivity|].
  split; [apply (Hsame (map userTurn (seq 6 10))); reflexivity|].
  split; [apply (Hsame (map userTurn (seq 6 10))); reflexivity|].
  destruct (history_window "hi" [silentTurn; silentTurn] korean)
    as [_ [_ [_ [_ [_ [_ Hsilent]]]]]].
  apply Hsilent; [discriminate | reflexivity].
Defined.

(** C6, as first stated, fails: a history whose turns all lack a reply
    renders no line, yet the marker is not put in its place. *)
Lemma marker_only_for_empty_history : ~ markerWhenNothingRendered.
Proof.
  intros H. specialize (H [silentTurn] eq_refl).
  vm_compute in H. discriminate H.
Qed.

(** What the builder renders for that history: the empty string. *)
Example silent_history_run :
  historyContext [silentTurn] = EmptyString /\
  fullPrompt "hi" [silentTurn] english
  = getSystemPrompt english ++ nl ++ nl ++ "Conversation History:" ++ nl
    ++ nl ++ nl ++ "Student: hi" ++ nl ++ nl
    ++ "Tutor (respond in JSON format):".
Proof. split; reflexivity. Qed.

End PromptBuilder.

(** ** Fence stripping *)
Module Fences.
Import ChatService Vocabulary StringFacts.

Lemma removeFences_other (c : ascii) (s : string) :
  c <> "`"%char -> removeFences (String c s) = String c (removeFences s).
Proof.
  intros H.
  destruct c as [[] [] [] [] [] [] [] []]; try reflexivity.
  now elim H.
Qed.

Lemma removeFences_fence (r : string) :
  removeFences ("```" ++ r) = removeFences (skipLineFeed r).
Proof.
  destruct r as [|c r]; [reflexivity|].
  destruct c as [[] [] [] [] [] [] [] []]; reflexivity.
Qed.

Lemma removeJsonFences_other (c : ascii) (s : string) :
  c <> "`"%char ->
  removeJsonFences (String c s) = String c (removeJsonFences s).
Proof.
  intros H.
  destruct c as [[] [] [] [] [] [] [] []]; try reflexivity.
  now elim H.
Qed.

Lemma removeJsonFences_fence (r : string) :
  removeJsonFences ("```json" ++ r) = removeJsonFences (skipLineFeed r).
Proof.
  destruct r as [|c r]; [reflexivity|].
  destruct c as [[] [] [] [] [] [] [] []]; reflexivity.
Qed.

Lemma prefix_true (p post : string) : prefix p (p ++ post) = true.
Proof. apply prefix_iff. now exists post. Qed.

Lemma prefix_false (p s : string) :
  (forall post, s <> p ++ post) -> prefix p s = false.
Proof.
  intros H. destruct (prefix p s) eqn:E; [|reflexivity].
  apply prefix_iff in E. destruct E as [post E]. now elim (H post).
Qed.

Lemma prefix_false_inv (p s post : string) :
  prefix p s = false -> s <> p ++ post.
Proof. intros H ->. now rewrite prefix_true in H. Qed.

(** Where no fence starts, the character is kept. *)
Lemma removeFences_keeps (c : ascii) (s : string) :
  prefix "```" (String c s) = false ->
  removeFences (String c s) = String c (removeFences s).
Proof.
  intros H.
  destruct (ascii_dec c "`") as [->|Hc]; [|now apply removeFences_other].
  destruct s as [|c2 s2]; [reflexivity|].
  destruct (ascii_dec c2 "`") as [->|Hc2].
  - destruct s2 as [|c3 s3]; [reflexivity|].
    destruct (ascii_dec c3 "`") as [->|Hc3].
    + elim (prefix_false_inv "```" _ s3 H). reflexivity.
    + destruct c3 as [[] [] [] [] [] [] [] []]; try reflexivity.
      now elim Hc3.
  - destruct c2 as [[] [] [] [] [] [] [] []]; try reflexivity.
    now elim Hc2.
Qed.

(** Removing the fences cannot bring two backticks to the front. *)
Lemma removeFences_front2 (s : string) :
  prefix "``" s = false -> prefix "``" (removeFences s) = false.
Proof.
  intros H. apply prefix_false. intros post E.
  destruct s as [|c1 s1]; [discriminate E|].
  rewrite removeFences_keeps in E.
  - injection E as -> E.
    destruct s1 as [|c2 s2]; [discriminate E|].
    destruct (ascii_dec c2 "`") as [->|Hc2].
    + elim (prefix_false_inv "``" _ s2 H). reflexivity.
    + rewrite removeFences_other in E by exact Hc2. now injection E as -> _.
  - apply prefix_false. intros post' E'.
    elim (prefix_false_inv "``" _ (String "`" post') H). exact E'.
Qed.

Lemma removeFences_front3 (c : ascii) (s : string) :
  prefix "```" (String c s) = false ->
  prefix "```" (String c (removeFences s)) = false.
Proof.
  intros H. apply prefix_false. intros post E. injection E as -> E.
  assert (prefix "``" s = false) as H2.
  { apply prefix_false. intros post' ->.
    elim (prefix_false_inv "```" _ post' H). reflexivity. }
  apply removeFences_front2 in H2.
  elim (prefix_false_inv "``" _ post H2). exact E.
Qed.

Lemma skipLineFeed_length (s : string) :
  String.length (skipLineFeed s) <= String.length s.
Proof.
  destruct s as [|c s]; [simpl; lia|].
  destruct c as [[] [] [] [] [] [] [] []]; simpl; lia.
Qed.

Lemma append_length (a b : string) :
  String.length (a ++ b) = String.length a + String.length b.
Proof. induction a as [|c a IH]; simpl; [reflexivity | now rewrite IH]. Qed.

(** No fence is left by [removeFences]. *)
Lemma removeFences_no_fence (s : string) :
  includes (removeFences s) "```" = false.
Proof.
  assert (forall n s, String.length s <= n ->
            includes (removeFences s) "```" = false) as H;
    [|now apply (H (String.length s))].
  clear s. induction n as [|n IH]; intros s Hlen.
  - destruct s; [reflexivity | simpl in Hlen; lia].
  - destruct s as [|c s]; [reflexivity|].
    destruct (prefix "```" (String c s)) eqn:P.
    + apply prefix_iff in P. destruct P as [r E]. rewrite E.
      rewrite removeFences_fence. apply IH.
      pose proof (skipLineFeed_length r) as Hr.
      rewrite E, append_length in Hlen. simpl in Hlen. lia.
    + rewrite removeFences_keeps by exact P.
      rewrite includes_cons, removeFences_front3 by exact P.
      apply IH. simpl in Hlen. lia.
Qed.

(** *** [trim] keeps a part of its argument *)

Lemma dropWhiteSpace_suffix (backwards : bool) (s : string) :
  exists a, s = a ++ dropWhiteSpace backwards s.
Proof.
  assert (forall n s, String.length s <= n ->
            exists a, s = a ++ dropWhiteSpace backwards s) as H;
    [|now apply (H (String.length s))].
  clear s. induction n as [|n IH]; intros s Hlen.
  - destruct s; [now exists EmptyString | simpl in Hlen; lia].
  - destruct s as [|a s1]; [now exists EmptyString|].
    simpl in Hlen. simpl.
    destruct (isWhiteSpace1 a).
    { destruct (IH s1 ltac:(lia)) as [x Hx].
      exists (String a x). simpl. now rewrite <- Hx. }
    destruct s1 as [|b s2]; [now exists EmptyString|].
    simpl in Hlen.
    destruct (if backwards then isWhiteSpace2 b a else isWhiteSpace2 a b).
    { destruct (IH s2 ltac:(lia)) as [x Hx].
      exists (String a (String b x)). simpl. now rewrite <- Hx. }
    destruct s2 as [|c s3]; [now exists EmptyString|].
    simpl in Hlen.
    destruct (if backwards then isWhiteSpace3 c b a else isWhiteSpace3 a b c).
    { destruct (IH s3 ltac:(lia)) as [x Hx].
      exists (String a (String b (String c x))). simpl. now rewrite <- Hx. }
    now exists EmptyString.
Qed.

Lemma list_ascii_of_string_app (a b : string) :
  list_ascii_of_string (a ++ b)
  = (list_ascii_of_string a ++ list_ascii_of_string b)%list.
Proof. induction a as [|c a IH]; simpl; [reflexivity | now rewrite IH]. Qed.

Lemma string_of_list_ascii_app (a b : list ascii) :
  string_of_list_ascii (a ++ b)
  = string_of_list_ascii a ++ string_of_list_ascii b.
Proof. induction a as [|c a IH]; simpl; [reflexivity | now rewrite IH]. Qed.

Lemma reverse_app (a b : string) :
  reverse (a ++ b) = reverse b ++ reverse a.
Proof.
  unfold reverse.
  now rewrite list_ascii_of_string_app, rev_app_distr, string_of_list_ascii_app.
Qed.

Lemma reverse_involutive (s : string) : reverse (reverse s) = s.
Proof.
  unfold reverse.
  now rewrite list_ascii_of_string_of_list_ascii, rev_involutive,
    string_of_list_ascii_of_string.
Qed.

Lemma trim_infix (s : string) : exists a b, s = a ++ trim s ++ b.
Proof.
  unfold trim, trimEnd, trimStart.
  destruct (dropWhiteSpace_suffix false s) as [a Ha].
  destruct (dropWhiteSpace_suffix true (reverse (dropWhiteSpace false s)))
    as [b Hb].
  exists a, (reverse b).
  rewrite <- reverse_app, <- Hb, reverse_involutive. exact Ha.
Qed.

(** No fence is left in the text handed to [JSON.parse]. *)
Lemma cleanedText_no_fence (text : string) :
  includes (cleanedText text) "```" = false.
Proof.
  unfold cleanedText.
  destruct (trim_infix (removeFences (removeJsonFences text))) as [a [b E]].
  apply (includes_false_infix a _ b). rewrite <- E.
  apply removeFences_no_fence.
Qed.

(** *** A fence is removed wherever it stands *)

Lemma no_backtick_cons (c : ascii) (a : string) :
  includes (String c a) "`" = false ->
  c <> "`"%char /\ includes a "`" = false.
Proof.
  rewrite includes_cons. intros H. apply orb_false_elim in H.
  destruct H as [H1 H2]. split; [|exact H2].
  intros ->. elim (prefix_false_inv "`" _ a H1). reflexivity.
Qed.

Lemma removeFences_at (a b : string) :
  includes a "`" = false ->
  removeFences (a ++ "```" ++ b) = a ++ removeFences (skipLineFeed b).
Proof.
  induction a as [|c a IH]; intros H.
  - apply removeFences_fence.
  - apply no_backtick_cons in H. destruct H as [Hc Ha].
    change (String c a ++ "```" ++ b) with (String c (a ++ "```" ++ b)).
    rewrite removeFences_other by exact Hc. now rewrite IH.
Qed.

Lemma removeJsonFences_at (a b : string) :
  includes a "`" = false ->
  removeJsonFences (a ++ "```json" ++ b)
  = a ++ removeJsonFences (skipLineFeed b).
Proof.
  induction a as [|c a IH]; intros H.
  - apply removeJsonFences_fence.
  - apply no_backtick_cons in H. destruct H as [Hc Ha].
    change (String c a ++ "```json" ++ b)
      with (String c (a ++ "```json" ++ b)).
    rewrite removeJsonFences_other by exact Hc. now rewrite IH.
Qed.

(** C10. Fence stripping deletes fences wherever they stand: a fence that
    follows any text free of backticks is removed together with the line
    feed that may follow it, by [removeJsonFences] for the json fence and by
    [removeFences] for the plain one; the text handed to [JSON.parse] never
    contains three backticks in a row, whatever the model wrote; and a valid
    JSON object whose string value holds fences reaches the caller with that
    value altered. *)
Theorem fences_deleted_anywhere :
  (forall a b : string,
     includes a "`" = false ->
     removeJsonFences (a ++ "```json" ++ b)
     = a ++ removeJsonFences (skipLineFeed b)) /\
  (forall a b : string,
     includes a "`" = false ->
     removeFences (a ++ "```" ++ b) = a ++ removeFences (skipLineFeed b)) /\
  (forall text : string,
     includes (cleanedText text) "```" = false /\
     includes (cleanedText text) "```json" = false) /\
  (forall (userMessage text : string) (v : JsValue),
     JSON_parse (cleanedText text) = Some v ->
     ChatResponseDto.data (parseResponse userMessage text) = v) /\
  JSON_parse fencedReply
  = Some (JObject [("reply", JString "Wrap it in ```json and ``` marks")]) /\
  cleanedText fencedReply
  = "{" ++ dq ++ "reply" ++ dq ++ ":" ++ dq ++ "Wrap it in  and  marks"
    ++ dq ++ "}" /\
  (forall userMessage : string,
     ChatResponseDto.data (parseResponse userMessage fencedReply)
     = JObject [("reply", JString "Wrap it in  and  marks")]).
Proof.
  split; [exact removeJsonFences_at|].
  split; [exact removeFences_at|].
  split.
  { intros text. split; [apply cleanedText_no_fence|].
    destruct (includes (cleanedText text) "```json") eqn:E; [|reflexivity].
    apply includes_iff in E. destruct E as [pre [post E]].
    assert (includes (cleanedText text) "```" = true) as C.
    { apply includes_iff. exists pre, ("json" ++ post). exact E. }
    now rewrite cleanedText_no_fence in C. }
  split.
  { intros userMessage text v H. unfold parseResponse. now rewrite H. }
  split; [reflexivity|]. split; [reflexivity|].
  intros userMessage. reflexivity.
Qed.

Lemma fences_deleted_anywhere_witness :
  removeJsonFences ("Here: " ++ "```json" ++ nl ++ "{}")
  = "Here: " ++ removeJsonFences (skipLineFeed (nl ++ "{}")) /\
  removeFences ("{}" ++ "```" ++ " done")
  = "{}" ++ removeFences (skipLineFeed " done") /\
  ChatResponseDto.data (parseResponse "hi" ("```json" ++ nl ++ "[1]"))
  = JArray [JNumber "1"].
Proof.
  destruct fences_deleted_anywhere as [Hjson [Hplain [_ [Hparse _]]]].
  split; [apply Hjson; reflexivity|].
  split; [apply Hplain; reflexivity|].
  apply Hparse. reflexivity.
Defined.

End Fences.

(** ** The calls of one request *)
Module Requests.
Import ChatService Vocabulary.

(** The calls a scan adds are the first few of its round-robin order, at
    least one when there is a model to call. *)
Lemma fallbackLoop_calls (models : list string) (genAI : Provider)
      (prompt : string) (start m i : nat) (lastError : option Error)
      (this : t) (calls : list Call) :
  exists k,
    k <= m /\ (0 < m -> 0 < k) /\
    snd (fallbackLoop models genAI prompt start (seq i m) lastError this calls)
    = (calls ++ attempts models prompt start i k)%list.
Proof.
  revert i lastError calls.
  induction m as [|m IH]; intros i lastError calls.
  - exists 0. simpl. rewrite app_nil_r. repeat split; lia.
  - simpl. destruct (genAI calls _ prompt) as [text|error].
    + exists 1. repeat split; lia.
    + destruct (isRateLimitError error).
      * destruct (IH (S i) (Some error)
                    (calls ++ [attempt models prompt start i])%list)
          as [k [Hk [_ H]]].
        exists (S k). split; [lia|]. split; [lia|].
        etransitivity; [exact H|]. now rewrite <- app_assoc.
      * exists 1. repeat split; lia.
Qed.

(** Over less than a full turn the round-robin order meets no index twice. *)
Lemma round_robin_injective (n start j1 j2 : nat) :
  j1 < n -> j2 < n ->
  (start + j1) mod n = (start + j2) mod n -> j1 = j2.
Proof.
  intros H1 H2 E.
  pose proof (Nat.div_mod_eq (start + j1) n) as D1.
  pose proof (Nat.div_mod_eq (start + j2) n) as D2.
  rewrite E in D1.
  assert ((start + j1) / n = (start + j2) / n) as Q; [nia | nia].
Qed.

Lemma attempts_models_NoDup (models : list string) (prompt : string)
      (start k : nat) :
  NoDup models -> k <= List.length models ->
  NoDup (map fst (attempts models prompt start 0 k)).
Proof.
  intros Hnd Hk. unfold attempts. rewrite map_map. simpl.
  apply NoDup_map_NoDup_ForallPairs; [|apply seq_NoDup].
  intros j1 j2 Hj1 Hj2 E.
  apply in_seq in Hj1. apply in_seq in Hj2.
  assert (0 < List.length models) as Hn by lia.
  unfold modelAt in E.
  apply (proj1 (NoDup_nth models EmptyString) Hnd) in E;
    try (apply Nat.mod_upper_bound; lia).
  apply (round_robin_injective (List.length models) start); lia.
Qed.

Lemma GEMINI_MODELS_NoDup : NoDup GEMINI_MODELS.
Proof.
  unfold GEMINI_MODELS.
  repeat constructor; simpl; intuition discriminate.
Qed.

(** X1. Whatever the provider does, one run of the fallback loop makes at
    least one call and at most one call per model; the calls are the first
    few of the round-robin order from the cursor, they all carry the prompt
    the loop was given, and no model is called twice. *)
Theorem fallback_calls
    (genAI : Provider) (prompt : string) (this : t) (calls : list Call) :
  exists k,
    1 <= k <= List.length GEMINI_MODELS /\
    snd (generateWithFallback genAI prompt this calls)
    = (calls ++
       attempts GEMINI_MODELS prompt (currentModelIndex this) 0 k)%list /\
    NoDup (map fst
             (attempts GEMINI_MODELS prompt (currentModelIndex this) 0 k)).
Proof.
  destruct (fallbackLoop_calls GEMINI_MODELS genAI prompt
              (currentModelIndex this) (List.length GEMINI_MODELS) 0 None
              this calls) as [k [Hle [Hpos H]]].
  exists k. split; [split; [apply Hpos; simpl; lia | exact Hle]|].
  split; [exact H|].
  apply attempts_models_NoDup; [exact GEMINI_MODELS_NoDup | exact Hle].
Qed.

(** A scan that ends by throwing a rate-limit error has called every model
    it was given. *)
Lemma fallbackLoop_throws_rate_limit (models : list string) (genAI : Provider)
      (prompt : string) (start m i : nat) (lastError : option Error)
      (this this' : t) (calls calls' : list Call) (e : Error) :
  fallbackLoop models genAI prompt start (seq i m) lastError this calls
  = (Throw e, this', calls') ->
  isRateLimitError e = true ->
  calls' = (calls ++ attempts models prompt start i m)%list.
Proof.
  revert i lastError calls.
  induction m as [|m IH]; intros i lastError calls H Hrate.
  - simpl in H. injection H as _ _ <-. unfold attempts. simpl.
    now rewrite app_nil_r.
  - simpl in H. destruct (genAI calls _ prompt) as [text|error];
      [discriminate H|].
    destruct (isRateLimitError error) eqn:R.
    + apply IH in H; [|exact Hrate]. rewrite H, <- app_assoc. reflexivity.
    + injection H as <- _ _. congruence.
Qed.

(** X2. The caller is told of a rate limit (status 429) only when the
    request has called every model: the exception is then the one for all
    models being rate limited, the cursor has not moved and the calls made
    are one per model, in round-robin order from the cursor. *)
Theorem rate_limit_reported_after_all_models
    (genAI : Provider) (userMessage : string)
    (chatHistory : option (list ChatMessage))
    (targetLanguage : option SupportedLanguage)
    (this this' : t) (calls calls' : list Call) (exception : HttpException) :
  sendMessage genAI userMessage chatHistory targetLanguage this calls
  = (Throw exception, this', calls') ->
  status exception = 429 ->
  exception = allModelsRateLimited /\
  this' = this /\
  calls' = (calls ++
            attempts GEMINI_MODELS
              (fullPrompt userMessage (orElse chatHistory [])
                 (orElse targetLanguage english))
              (currentModelIndex this) 0 (List.length GEMINI_MODELS))%list.
Proof.
  intros H Hstatus. unfold sendMessage in H.
  pose proof (Gateway.fallbackLoop_cursor GEMINI_MODELS genAI
                (fullPrompt userMessage (orElse chatHistory [])
                   (orElse targetLanguage english))
                (currentModelIndex this)
                (seq 0 (List.length GEMINI_MODELS)) None this calls) as Hcur.
  unfold generateWithFallback, generateWithFallbackOn in H.
  destruct (fallbackLoop _ _ _ _ _ _ _ _) as [[[text|e] this1] calls1] eqn:E;
    [discriminate H|].
  injection H as <- <- <-.
  unfold toHttpException in Hstatus |- *.
  destruct (match Js.message e with
            | Some m => includes m "API_KEY"
            | None => false
            end); [discriminate Hstatus|].
  destruct (isRateLimitError e) eqn:R; [|discriminate Hstatus].
  split; [reflexivity|]. split; [exact Hcur|].
  exact (fallbackLoop_throws_rate_limit _ _ _ _ _ _ _ _ _ _ _ _ E R).
Qed.

Lemma rate_limit_reported_after_all_models_witness :
  {| response :=
       "All AI models are currently rate limited. Please try again later.";
     status := 429 |} = allModelsRateLimited /\
  init = init /\
  attempts GEMINI_MODELS (fullPrompt "hi" [] english) 0 0 3
  = ([] ++ attempts GEMINI_MODELS (fullPrompt "hi" [] english)
             (currentModelIndex init) 0 (List.length GEMINI_MODELS))%list.
Proof.
  exact (rate_limit_reported_after_all_models allRateLimited "hi" None None
           init init []
           (attempts GEMINI_MODELS (fullPrompt "hi" [] english) 0 0 3)
           {| response :=
                "All AI models are currently rate limited. Please try again later.";
              status := 429 |}
           eq_refl eq_refl).
Defined.

(** X3. When a model answers with an error that is not a rate-limit error
    and whose message does not contain API_KEY, after the models before it
    were rate limited, the request stops there: the caller gets status 500
    and a response made of "Failed to get AI response: " and the message of
    that error, or "Unknown error" when it has no message or an empty one;
    the cursor does not move. *)
Theorem other_error_reported
    (genAI : Provider) (userMessage : string)
    (chatHistory : option (list ChatMessage))
    (targetLanguage : option SupportedLanguage)
    (this : t) (calls : list Call)
    (k : nat) (errs : nat -> Error) (error : Error) :
  let prompt :=
    fullPrompt userMessage (orElse chatHistory [])
      (orElse targetLanguage english) in
  k < List.length GEMINI_MODELS ->
  (forall j, j < k ->
     rateLimitedAt GEMINI_MODELS genAI prompt calls (currentModelIndex this)
       j (errs j)) ->
  answer GEMINI_MODELS genAI prompt calls (currentModelIndex this) k
  = inr error ->
  isRateLimitError error = false ->
  (forall m, Js.message error = Some m -> includes m "API_KEY" = false) ->
  sendMessage genAI userMessage chatHistory targetLanguage this calls
  = (Throw {| response :=
                "Failed to get AI response: " ++
                match Js.message error with
                | Some (String c m) => String c m
                | _ => "Unknown error"
                end;
              status := 500 |},
     this,
     (calls ++
      attempts GEMINI_MODELS prompt (currentModelIndex this) 0 (S k))%list).
Proof.
  intros prompt Hk Hfail Herr Hother Hkey.
  unfold sendMessage. fold prompt.
  unfold generateWithFallback, generateWithFallbackOn.
  set (models := GEMINI_MODELS) in *. clearbody models.
  replace (List.length models)
    with (k + S (List.length models - S k)) at 1 by lia.
  rewrite (Gateway.fallbackLoop_skips models genAI prompt _ errs).
  - unfold answer in Herr.
    simpl. rewrite Herr, Hother.
    rewrite Gateway.attempts_snoc, app_assoc.
    unfold toHttpException. rewrite Hother.
    destruct (Js.message error) as [[|c m]|]; try reflexivity.
    now rewrite (Hkey _ eq_refl).
  - intros j Hj. exact (Hfail j Hj).
Qed.

Lemma other_error_reported_witness :
  sendMessage secondModelRejects "hi" None None init []
  = (Throw {| response :=
                "Failed to get AI response: [400 Bad Request] Invalid JSON payload received";
              status := 500 |},
     init,
     attempts GEMINI_MODELS (fullPrompt "hi" [] english) 0 0 2).
Proof.
  assert (1 < List.length GEMINI_MODELS) as Hk by (simpl; lia).
  assert (forall j, j < 1 ->
            rateLimitedAt GEMINI_MODELS secondModelRejects
              (fullPrompt "hi" (orElse None []) (orElse None english)) []
              (currentModelIndex init) j tooManyRequests) as Hfail.
  { intros [|j] Hj; [split; reflexivity | lia]. }
  assert (forall m, Js.message badRequest = Some m ->
            includes m "API_KEY" = false) as Hkey.
  { intros m [= <-]. reflexivity. }
  exact (other_error_reported secondModelRejects "hi" None None init [] 1
           (fun _ => tooManyRequests) badRequest Hk Hfail eq_refl eq_refl
           Hkey).
Defined.

(** An error thrown by the loop was raised by the call made last, as soon
    as one call was made. *)
Lemma fallbackLoop_throws_last (models : list string) (genAI : Provider)
      (prompt : string) (start : nat) (todo : list nat)
      (lastError : option Error) (this this' : t) (calls calls' : list Call)
      (e : Error) :
  models <> [] ->
  match lastError with
  | Some l =>
      exists before modelName,
        calls = (before ++ [(modelName, prompt)])%list /\
        In modelName models /\
        genAI before modelName prompt = inr l
  | None => todo <> []
  end ->
  fallbackLoop models genAI prompt start todo lastError this calls
  = (Throw e, this', calls') ->
  exists before modelName,
    calls' = (before ++ [(modelName, prompt)])%list /\
    In modelName models /\
    genAI before modelName prompt = inr e.
Proof.
  intros Hmodels. revert lastError calls.
  assert (forall i, In (modelAt models ((start + i) mod List.length models))
                       models) as Hin.
  { intros i. apply nth_In, Nat.mod_upper_bound.
    destruct models; [now elim Hmodels | discriminate]. }
  induction todo as [|i todo IH]; intros lastError calls Hlast H.
  - simpl in H. injection H as <- _ <-.
    destruct lastError as [l|]; [exact Hlast | now elim Hlast].
  - simpl in H.
    destruct (genAI calls _ prompt) as [text|error] eqn:E;
      [discriminate H|].
    destruct (isRateLimitError error).
    + apply (IH (Some error) _) in H; [exact H|].
      eexists; eexists. split; [reflexivity | split; [apply Hin | exact E]].
    + injection H as <- _ <-.
      eexists; eexists. split; [reflexivity | split; [apply Hin | exact E]].
Qed.

(** X14. The error the fallback loop throws is always the one the provider
    raised for the last call of the request, a call to one of the models of
    the list; the error made up for an empty list of models, All Gemini
    models are unavailable, is never thrown for lack of a call. *)
Theorem thrown_error_is_last_answer
    (genAI : Provider) (prompt : string)
    (this this' : t) (calls calls' : list Call) (e : Error) :
  generateWithFallback genAI prompt this calls = (Throw e, this', calls') ->
  exists before modelName,
    calls' = (before ++ [(modelName, prompt)])%list /\
    In modelName GEMINI_MODELS /\
    genAI before modelName prompt = inr e.
Proof.
  intros H.
  apply (fallbackLoop_throws_last GEMINI_MODELS genAI prompt
           (currentModelIndex this) (seq 0 (List.length GEMINI_MODELS))
           None this this' calls calls' e);
    [discriminate | discriminate | exact H].
Qed.

Lemma thrown_error_is_last_answer_witness :
  exists before modelName,
    [ ("gemini-3-flash-preview", "p"); ("gemini-2.5-flash", "p") ]
    = (before ++ [(modelName, "p")])%list /\
    In modelName GEMINI_MODELS /\
    secondModelRejects before modelName "p" = inr badRequest.
Proof.
  exact (thrown_error_is_last_answer secondModelRejects "p" init init []
           [ ("gemini-3-flash-preview", "p"); ("gemini-2.5-flash", "p") ]
           badRequest eq_refl).
Defined.

(** *** The cursor across requests *)

Lemma lastAnswered_app (genAI : Provider) (before a b : list Call)
      (found : option string) :
  lastAnswered genAI before (a ++ b) found
  = lastAnswered genAI (before ++ a) b (lastAnswered genAI before a found).
Proof.
  revert before found. induction a as [|[m p] a IH]; intros before found.
  - simpl. now rewrite app_nil_r.
  - simpl. rewrite IH, <- app_assoc. reflexivity.
Qed.

(** The calls a scan adds, and the last of them that was answered. *)
Lemma fallbackLoop_lastAnswered (models : list string) (genAI : Provider)
      (prompt : string) (start : nat) (todo : list nat)
      (lastError : option Error) (this : t) (calls : list Call)
      (found : option string) :
  exists added,
    snd (fallbackLoop models genAI prompt start todo lastError this calls)
    = (calls ++ added)%list /\
    lastAnswered genAI calls added found
    = match fst (fallbackLoop models genAI prompt start todo lastError this
                   calls) with
      | (Return _, this') => Some (modelAt models (currentModelIndex this'))
      | (Throw _, _) => found
      end.
Proof.
  revert lastError calls.
  induction todo as [|i todo IH]; intros lastError calls.
  - exists []. simpl. now rewrite app_nil_r.
  - simpl. destruct (genAI calls _ prompt) as [text|error] eqn:E.
    + eexists. split; [reflexivity|]. simpl. now rewrite E.
    + destruct (isRateLimitError error).
      * destruct (IH (Some error)
                    (calls ++ [(modelAt models
                                  ((start + i) mod List.length models),
                                prompt)])%list) as [added [Hs Hl]].
        eexists. split; [rewrite Hs, <- app_assoc; reflexivity|].
        simpl. rewrite E. exact Hl.
      * eexists. split; [reflexivity|]. simpl. now rewrite E.
Qed.

(** X15. Across requests the cursor remembers the model that answered last:
    in every state the gateway can reach, the model under the cursor is the
    model of the most recent call that the provider answered with a text,
    and the first model of the list as long as no call was answered. *)
Theorem cursor_remembers_last_answer
    (genAI : Provider) (this : t) (calls : list Call) :
  reachable genAI this calls ->
  modelAt GEMINI_MODELS (currentModelIndex this)
  = orElse (lastAnswered genAI [] calls None) "gemini-3-flash-preview".
Proof.
  intros Hreach.
  induction Hreach as [|userMessage chatHistory targetLanguage this calls r
                        this' calls' _ IH Hsend].
  - reflexivity.
  - unfold sendMessage, generateWithFallback, generateWithFallbackOn in Hsend.
    destruct (fallbackLoop_lastAnswered GEMINI_MODELS genAI
                (fullPrompt userMessage (orElse chatHistory [])
                   (orElse targetLanguage english))
                (currentModelIndex this)
                (seq 0 (List.length GEMINI_MODELS)) None this calls
                (lastAnswered genAI [] calls None)) as [added [Hs Hl]].
    pose proof (Gateway.fallbackLoop_cursor GEMINI_MODELS genAI
                  (fullPrompt userMessage (orElse chatHistory [])
                     (orElse targetLanguage english))
                  (currentModelIndex this)
                  (seq 0 (List.length GEMINI_MODELS)) None this calls)
      as Hcur.
    destruct (fallbackLoop _ _ _ _ _ _ _ _) as [[[text|e] this1] calls1];
      injection Hsend as _ <- <-; simpl in Hs, Hl; subst calls1;
      rewrite lastAnswered_app; simpl app; rewrite Hl.
    + reflexivity.
    + subst this1. exact IH.
Qed.

Lemma cursor_remembers_last_answer_witness :
  modelAt GEMINI_MODELS
    (currentModelIndex
       (snd (fst (sendMessage thirdModelAnswers "hi" None None init []))))
  = orElse
      (lastAnswered thirdModelAnswers []
         (snd (sendMessage thirdModelAnswers "hi" None None init [])) None)
      "gemini-3-flash-preview".
Proof.
  apply (cursor_remembers_last_answer thirdModelAnswers).
  apply (reachable_send thirdModelAnswers "hi" None None init []
           (fst (fst (sendMessage thirdModelAnswers "hi" None None init [])))).
  - apply reachable_init.
  - destruct (sendMessage thirdModelAnswers "hi" None None init [])
      as [[r this'] calls']. reflexivity.
Defined.

End Requests.

(** ** Classification of wrapped messages, and the text of the prompt *)
Module Prompts.
Import ChatService Vocabulary StringFacts Fences.

Lemma includes_wrapped (pre s post p : string) :
  includes s p = true -> includes (pre ++ s ++ post) p = true.
Proof.
  intros H. apply includes_iff in H. destruct H as [a [b ->]].
  apply includes_iff. exists (pre ++ a), (b ++ post).
  now rewrite !append_assoc.
Qed.

Lemma includes_toLowerCase_wrapped (pre s post p : string) :
  includes (toLowerCase s) p = true ->
  includes (toLowerCase (pre ++ s ++ post)) p = true.
Proof.
  intros H. rewrite !toLowerCase_app. now apply includes_wrapped.
Qed.

(** X4. A rate-limit error stays one when its message is wrapped in more
    text, as the SDK does when it reports a failed request, and whatever
    the name of the error is. *)
Theorem rate_limit_survives_wrapping
    (name name' : string) (msg pre post : string) :
  isRateLimitError {| Js.name := name; Js.message := Some msg |} = true ->
  isRateLimitError
    {| Js.name := name'; Js.message := Some (pre ++ msg ++ post) |} = true.
Proof.
  unfold isRateLimitError. simpl Js.message.
  rewrite !orb_true_iff.
  intros [[[[H|H]|H]|H]|H];
    apply (includes_toLowerCase_wrapped pre msg post) in H; tauto.
Qed.

Lemma rate_limit_survives_wrapping_witness :
  isRateLimitError
    {| Js.name := "GoogleGenerativeAIFetchError";
       Js.message :=
         Some ("[GoogleGenerativeAI Error]: Error fetching: "
               ++ "[429 Too Many Requests] Resource has been exhausted"
               ++ " (e.g. check quota).") |} = true.
Proof.
  exact (rate_limit_survives_wrapping "Error" "GoogleGenerativeAIFetchError"
           "[429 Too Many Requests] Resource has been exhausted"
           "[GoogleGenerativeAI Error]: Error fetching: "
           " (e.g. check quota)." eq_refl).
Defined.

(** X5. The rendered history does not tell who said what: a user turn whose
    content holds a line feed followed by a Tutor line renders exactly as
    that user turn followed by an assistant turn with that reply. *)
Theorem history_rendering_ambiguous
    (said : string) (c : ascii) (reply : string)
    (d d' : option ChatMessageData) (content : string)
    (o co cp e p : option string) :
  historyContext
    [ {| role := user;
         content := said ++ nl ++ "Tutor: " ++ String c reply;
         data := d |} ]
  = historyContext
      [ {| role := user; content := said; data := d' |};
        {| role := assistant; content := content;
           data := Some {| original := o; correction := co;
                           correctionPronunciation := cp; explanation := e;
                           Dto.reply := Some (String c reply);
                           pronunciation := p |} |} ].
Proof.
  unfold historyContext, sliceLast, renderTurn. simpl.
  now rewrite ?append_assoc.
Qed.

(** X6. In the system prompt of every language each language-specific rule
    stands on a line of its own, numbered from 8 in the order of the
    profile, right after the seven fixed rules. *)
Theorem special_rules_numbered_from_8
    (language : SupportedLanguage) (k : nat) (rule : string) :
  nth_error (specialRules (LANGUAGE_CONFIGS language)) k = Some rule ->
  includes (getSystemPrompt language)
    (nl ++ numberToString (8 + k) ++ ". " ++ rule ++ nl) = true.
Proof.
  destruct language;
    (destruct k as [|[|[|[|k]]]]; cbn [nth_error LANGUAGE_CONFIGS specialRules];
     [intros [= <-]; vm_compute; reflexivity ..
     | try (destruct k; discriminate)]).
Qed.

Lemma special_rules_numbered_from_8_witness :
  includes (getSystemPrompt korean)
    (nl ++ "10. Pay attention to verb conjugation (past, present, future)"
     ++ nl) = true.
Proof.
  exact (special_rules_numbered_from_8 korean 2
           "Pay attention to verb conjugation (past, present, future)"
           eq_refl).
Defined.

Lemma sliceLast_map {A B : Type} (f : A -> B) (n : nat) (l : list A) :
  sliceLast n (map f l) = map f (sliceLast n l).
Proof. unfold sliceLast. now rewrite length_map, skipn_map. Qed.

Lemma renderTurn_essentialOf (msg : ChatMessage) :
  renderTurn (essentialOf msg) = renderTurn msg.
Proof.
  unfold renderTurn, essentialOf.
  destruct (role msg); [reflexivity|].
  destruct (data msg) as [d|]; reflexivity.
Qed.

(** X11. The prompt depends on nothing of the history but the roles, the
    contents of the user turns and the replies of the assistant turns: the
    content of an assistant turn, the data of a user turn and the other
    fields of the data never reach the model. *)
Theorem prompt_reads_roles_contents_replies
    (userMessage : string) (chatHistory : list ChatMessage)
    (language : SupportedLanguage) :
  fullPrompt userMessage (map essentialOf chatHistory) language
  = fullPrompt userMessage chatHistory language.
Proof.
  unfold fullPrompt, historyContext.
  rewrite sliceLast_map, length_map, map_map.
  now rewrite (map_ext _ _ renderTurn_essentialOf).
Qed.

(** X12. The system prompt ends its instructions with the worked example of
    the profile.  For english, japanese and korean this example is valid
    JSON and parses to the six example values; for chinese, french, german
    and spanish the explanation quotes a word with double quotation marks
    that the template does not escape, and [JSON.parse] rejects the
    example. *)
Theorem worked_example_validity (language : SupportedLanguage) :
  includes (getSystemPrompt language)
    ("Example response format:" ++ nl
     ++ exampleResponse (LANGUAGE_CONFIGS language)) = true /\
  JSON_parse (exampleResponse (LANGUAGE_CONFIGS language))
  = if quotesInExample language then None
    else Some (exampleObject (LANGUAGE_CONFIGS language)).
Proof. destruct language; split; vm_compute; reflexivity. Qed.

(** X13. The prompt of a request tells its target language: for the same
    utterance and history, two languages give the same prompt only if they
    are the same language. *)
Theorem prompt_tells_language
    (userMessage : string) (chatHistory : list ChatMessage)
    (language language' : SupportedLanguage) :
  fullPrompt userMessage chatHistory language
  = fullPrompt userMessage chatHistory language' ->
  language = language'.
Proof.
  intros H. apply (f_equal String.length) in H.
  unfold fullPrompt in H. rewrite !append_length in H.
  assert (String.length (getSystemPrompt language)
          = String.length (getSystemPrompt language')) as L by lia.
  clear H.
  destruct language, language'; try reflexivity; vm_compute in L;
    discriminate L.
Qed.

Lemma prompt_tells_language_witness : french = french.
Proof.
  exact (prompt_tells_language "bonjour" [] french french eq_refl).
Defined.

End Prompts.

(** ** What cleaning does to a fenced reply, and to a clean one *)
Module Cleaning.
Import ChatService Vocabulary StringFacts Fences.

Lemma removeJsonFences_prefix (a b : string) :
  includes a "`" = false ->
  removeJsonFences (a ++ b) = a ++ removeJsonFences b.
Proof.
  induction a as [|c a IH]; intros H; [reflexivity|].
  apply no_backtick_cons in H. destruct H as [Hc Ha].
  change (String c a ++ b) with (String c (a ++ b)).
  rewrite removeJsonFences_other by exact Hc. now rewrite IH.
Qed.

Lemma removeFences_prefix (a b : string) :
  includes a "`" = false ->
  removeFences (a ++ b) = a ++ removeFences b.
Proof.
  induction a as [|c a IH]; intros H; [reflexivity|].
  apply no_backtick_cons in H. destruct H as [Hc Ha].
  change (String c a ++ b) with (String c (a ++ b)).
  rewrite removeFences_other by exact Hc. now rewrite IH.
Qed.

Lemma isWhiteSpace2_LF (a : ascii) : isWhiteSpace2 a "010" = false.
Proof. unfold isWhiteSpace2. simpl. apply andb_false_r. Qed.

Lemma isWhiteSpace3_LF (a b : ascii) : isWhiteSpace3 a b "010" = false.
Proof.
  unfold isWhiteSpace3. simpl.
  now rewrite !andb_false_r.
Qed.

(** A line feed at the end is removed with the white space before it. *)
Lemma trimStart_LF (s : string) :
  trimStart (s ++ nl)
  = match trimStart s with
    | EmptyString => EmptyString
    | String c r => String c r ++ nl
    end.
Proof.
  unfold trimStart.
  assert (forall n s, String.length s <= n ->
            dropWhiteSpace false (s ++ nl)
            = match dropWhiteSpace false s with
              | EmptyString => EmptyString
              | String c r => String c r ++ nl
              end) as H; [|now apply (H (String.length s))].
  clear s. induction n as [|n IH]; intros s Hlen.
  - destruct s; [reflexivity | simpl in Hlen; lia].
  - destruct s as [|a s1]; [reflexivity|].
    simpl in Hlen. cbn [dropWhiteSpace String.append].
    destruct (isWhiteSpace1 a) eqn:Ha; [apply IH; lia|].
    destruct s1 as [|b s2].
    { cbn [dropWhiteSpace String.append nl].
      rewrite isWhiteSpace2_LF. reflexivity. }
    simpl in Hlen. cbn [dropWhiteSpace String.append].
    destruct (isWhiteSpace2 a b) eqn:Hab; [apply IH; lia|].
    destruct s2 as [|c s3].
    { cbn [dropWhiteSpace String.append nl].
      rewrite isWhiteSpace3_LF. reflexivity. }
    simpl in Hlen. cbn [dropWhiteSpace String.append].
    destruct (isWhiteSpace3 a b c) eqn:Habc; [apply IH; lia|].
    reflexivity.
Qed.

Lemma trimEnd_LF (s : string) : trimEnd (s ++ nl) = trimEnd s.
Proof. unfold trimEnd. now rewrite reverse_app. Qed.

Lemma trim_LF (s : string) : trim (s ++ nl) = trim s.
Proof.
  unfold trim. rewrite trimStart_LF.
  destruct (trimStart s) as [|c r]; [reflexivity|].
  apply trimEnd_LF.
Qed.

(** X7. A reply free of backticks that the model wraps in a json fence, or
    in a plain fence, is cleaned to the same text as the bare reply, its
    trimmed text; so when that text is valid JSON the fenced reply is
    answered with the parsed value. *)
Theorem fenced_reply_cleaned (t : string) :
  includes t "`" = false ->
  cleanedText ("```json" ++ nl ++ t ++ nl ++ "```") = trim t /\
  cleanedText ("```" ++ nl ++ t ++ nl ++ "```") = trim t /\
  cleanedText t = trim t /\
  (forall (userMessage : string) (v : JsValue),
     JSON_parse (trim t) = Some v ->
     parseResponse userMessage ("```json" ++ nl ++ t ++ nl ++ "```")
     = {| ChatResponseDto.success := true; ChatResponseDto.data := v |}).
Proof.
  intros Ht.
  assert (removeFences (removeJsonFences (t ++ nl ++ "```")) = t ++ nl)
    as Hbody.
  { rewrite removeJsonFences_prefix by exact Ht.
    change (removeJsonFences (nl ++ "```")) with (nl ++ "```").
    rewrite removeFences_prefix by exact Ht. reflexivity. }
  assert (cleanedText ("```json" ++ nl ++ t ++ nl ++ "```") = trim t)
    as Hjson.
  { unfold cleanedText. rewrite removeJsonFences_fence.
    change (skipLineFeed (nl ++ t ++ nl ++ "```")) with (t ++ nl ++ "```").
    rewrite Hbody. apply trim_LF. }
  split; [exact Hjson|]. split; [|split].
  - unfold cleanedText.
    change (removeJsonFences ("```" ++ nl ++ t ++ nl ++ "```"))
      with ("```" ++ nl ++ removeJsonFences (t ++ nl ++ "```")).
    rewrite removeJsonFences_prefix by exact Ht.
    change (removeJsonFences (nl ++ "```")) with (nl ++ "```").
    rewrite removeFences_fence.
    change (skipLineFeed (nl ++ t ++ nl ++ "```")) with (t ++ nl ++ "```").
    rewrite removeFences_prefix by exact Ht.
    change (removeFences (nl ++ "```")) with nl. apply trim_LF.
  - unfold cleanedText.
    rewrite <- (append_nil_r t) at 1.
    rewrite removeJsonFences_prefix by exact Ht.
    change (removeJsonFences EmptyString) with EmptyString.
    rewrite removeFences_prefix by exact Ht.
    change (removeFences EmptyString) with EmptyString.
    now rewrite append_nil_r.
  - intros userMessage v Hv. unfold parseResponse. now rewrite Hjson, Hv.
Qed.

Lemma fenced_reply_cleaned_witness :
  parseResponse "hi"
    ("```json" ++ nl ++ ("{" ++ dq ++ "reply" ++ dq ++ ": [true, 1.5]}")
     ++ nl ++ "```")
  = {| ChatResponseDto.success := true;
       ChatResponseDto.data :=
         JObject [("reply", JArray [JBool true; JNumber "1.5"])] |}.
Proof.
  exact (proj2 (proj2 (proj2
           (fenced_reply_cleaned
              ("{" ++ dq ++ "reply" ++ dq ++ ": [true, 1.5]}") eq_refl)))
           "hi" (JObject [("reply", JArray [JBool true; JNumber "1.5"])])
           eq_refl).
Defined.

(** *** Cleaning twice *)

Lemma removeJsonFences_keeps (c : ascii) (s : string) :
  prefix "```" (String c s) = false ->
  removeJsonFences (String c s) = String c (removeJsonFences s).
Proof.
  intros H.
  destruct (ascii_dec c "`") as [->|Hc]; [|now apply removeJsonFences_other].
  destruct s as [|c2 s2]; [reflexivity|].
  destruct (ascii_dec c2 "`") as [->|Hc2].
  - destruct s2 as [|c3 s3]; [reflexivity|].
    destruct (ascii_dec c3 "`") as [->|Hc3].
    + elim (prefix_false_inv "```" _ s3 H). reflexivity.
    + destruct c3 as [[] [] [] [] [] [] [] []]; try reflexivity.
      now elim Hc3.
  - destruct c2 as [[] [] [] [] [] [] [] []]; try reflexivity.
    now elim Hc2.
Qed.

(** A text without fence goes through both replacements unchanged. *)
Lemma no_fence_unchanged (s : string) :
  includes s "```" = false ->
  removeJsonFences s = s /\ removeFences s = s.
Proof.
  induction s as [|c s IH]; intros H; [now split|].
  rewrite includes_cons in H. apply orb_false_elim in H.
  destruct H as [Hp Hs]. destruct (IH Hs) as [IH1 IH2].
  rewrite removeJsonFences_keeps, removeFences_keeps by exact Hp.
  now rewrite IH1, IH2.
Qed.

Lemma dropWhiteSpace_length (backwards : bool) (s : string) :
  String.length (dropWhiteSpace backwards s) <= String.length s.
Proof.
  destruct (dropWhiteSpace_suffix backwards s) as [a Ha].
  rewrite Ha at 2. rewrite append_length. lia.
Qed.

Lemma dropWhiteSpace_idempotent (backwards : bool) (s : string) :
  dropWhiteSpace backwards (dropWhiteSpace backwards s)
  = dropWhiteSpace backwards s.
Proof.
  assert (forall n s, String.length s <= n ->
            dropWhiteSpace backwards (dropWhiteSpace backwards s)
            = dropWhiteSpace backwards s) as H;
    [|now apply (H (String.length s))].
  clear s. induction n as [|n IH]; intros s Hlen.
  - destruct s; [reflexivity | simpl in Hlen; lia].
  - destruct s as [|a s1]; [reflexivity|].
    simpl in Hlen. cbn [dropWhiteSpace].
    destruct (isWhiteSpace1 a) eqn:Ha; [apply IH; lia|].
    destruct s1 as [|b s2].
    { cbn [dropWhiteSpace]. now rewrite Ha. }
    simpl in Hlen.
    destruct (if backwards then isWhiteSpace2 b a else isWhiteSpace2 a b)
      eqn:Hab; [apply IH; lia|].
    destruct s2 as [|c s3].
    { cbn [dropWhiteSpace]. now rewrite Ha, Hab. }
    simpl in Hlen.
    destruct (if backwards then isWhiteSpace3 c b a else isWhiteSpace3 a b c)
      eqn:Habc; [apply IH; lia|].
    cbn [dropWhiteSpace]. now rewrite Ha, Hab, Habc.
Qed.

(** A string that white space does not begin keeps this when cut short. *)
Lemma dropWhiteSpace_fixed_prefix (backwards : bool) (p b : string) :
  dropWhiteSpace backwards (p ++ b) = p ++ b ->
  dropWhiteSpace backwards p = p.
Proof.
  intros H.
  destruct p as [|a p1]; [reflexivity|].
  cbn [String.append dropWhiteSpace] in H. cbn [dropWhiteSpace].
  destruct (isWhiteSpace1 a).
  { pose proof (dropWhiteSpace_length backwards (p1 ++ b)) as L.
    rewrite H in L. simpl in L. lia. }
  destruct p1 as [|b' p2]; [reflexivity|].
  cbn [String.append] in H.
  destruct (if backwards then isWhiteSpace2 b' a else isWhiteSpace2 a b').
  { pose proof (dropWhiteSpace_length backwards (p2 ++ b)) as L.
    rewrite H in L. simpl in L. lia. }
  destruct p2 as [|c p3]; [reflexivity|].
  cbn [String.append] in H.
  destruct (if backwards then isWhiteSpace3 c b' a else isWhiteSpace3 a b' c).
  { pose proof (dropWhiteSpace_length backwards (p3 ++ b)) as L.
    rewrite H in L. simpl in L. lia. }
  reflexivity.
Qed.

Lemma trim_idempotent (s : string) : trim (trim s) = trim s.
Proof.
  unfold trim, trimStart.
  set (z := dropWhiteSpace false s).
  assert (dropWhiteSpace false z = z) as Hz
    by apply dropWhiteSpace_idempotent.
  assert (dropWhiteSpace false (trimEnd z) = trimEnd z) as Hhead.
  { unfold trimEnd.
    destruct (dropWhiteSpace_suffix true (reverse z)) as [a Ha].
    apply (dropWhiteSpace_fixed_prefix false _ (reverse a)).
    rewrite <- reverse_app, <- Ha, reverse_involutive. exact Hz. }
  rewrite Hhead. unfold trimEnd.
  now rewrite reverse_involutive, dropWhiteSpace_idempotent.
Qed.

(** X8. Cleaning a cleaned text changes nothing. *)
Theorem cleanedText_idempotent (text : string) :
  cleanedText (cleanedText text) = cleanedText text.
Proof.
  destruct (no_fence_unchanged _ (cleanedText_no_fence text)) as [H1 H2].
  unfold cleanedText at 1. rewrite H1, H2.
  unfold cleanedText. apply trim_idempotent.
Qed.

End Cleaning.

(** ** The origins allowed by CORS *)
Module Cors.
Import Configuration Main StringFacts Fences Cleaning.

Lemma split_nonempty (sep : ascii) (s : string) : split sep s <> [].
Proof.
  destruct s as [|c s]; simpl; [discriminate|].
  destruct (Ascii.eqb c sep); [discriminate|].
  destruct (split sep s); discriminate.
Qed.

(** X9. Whatever CORS_ORIGIN holds, at least one origin is allowed and no
    allowed origin begins or ends with white space (trimming it again
    changes nothing); when CORS_ORIGIN is unset or empty the only origin
    allowed is http://localhost:5173. *)
Theorem cors_origins_trimmed (env : Env) :
  corsOrigins env <> [] /\
  Forall (fun origin => trim origin = origin) (corsOrigins env) /\
  (CORS_ORIGIN env = None \/ CORS_ORIGIN env = Some EmptyString ->
   corsOrigins env = ["http://localhost:5173"]).
Proof.
  unfold corsOrigins. split; [|split].
  - intros H. apply map_eq_nil in H. now apply split_nonempty in H.
  - apply Forall_map, Forall_forall. intros piece _. apply trim_idempotent.
  - unfold cors_origin. intros [-> | ->]; reflexivity.
Qed.

Lemma cors_origins_trimmed_witness :
  corsOrigins {| NODE_ENV := None; GEMINI_API_KEY := None;
                 CORS_ORIGIN := Some EmptyString |}
  = ["http://localhost:5173"].
Proof.
  exact (proj2 (proj2 (cors_origins_trimmed
                         {| NODE_ENV := None; GEMINI_API_KEY := None;
                            CORS_ORIGIN := Some EmptyString |}))
           (or_intror eq_refl)).
Defined.

Lemma no_comma_cons (c : ascii) (a : string) :
  includes (String c a) "," = false ->
  Ascii.eqb c "," = false /\ includes a "," = false.
Proof.
  rewrite includes_cons. intros H. apply orb_false_elim in H.
  destruct H as [H1 H2]. split; [|exact H2].
  destruct (Ascii.eqb c ",") eqn:E; [|reflexivity].
  apply Ascii.eqb_eq in E. subst c.
  elim (prefix_false_inv "," _ a H1). reflexivity.
Qed.

Lemma split_no_comma (o : string) :
  includes o "," = false -> split "," o = [o].
Proof.
  induction o as [|c o IH]; intros H; [reflexivity|].
  apply no_comma_cons in H. destruct H as [Hc Ho].
  simpl. rewrite Hc, (IH Ho). reflexivity.
Qed.

Lemma split_at_comma (o rest : string) :
  includes o "," = false ->
  split "," (o ++ "," ++ rest) = o :: split "," rest.
Proof.
  induction o as [|c o IH]; intros H; [reflexivity|].
  apply no_comma_cons in H. destruct H as [Hc Ho].
  change (String c o ++ "," ++ rest) with (String c (o ++ "," ++ rest)).
  cbn [split]. rewrite Hc, (IH Ho). reflexivity.
Qed.

Lemma trim_after_space (s : string) :
  map trim (split "," (String " " s)) = map trim (split "," s).
Proof.
  cbn [split]. change (Ascii.eqb " " ",") with false. cbv iota.
  pose proof (split_nonempty "," s) as H.
  destruct (split "," s) as [|piece pieces]; [now elim H|].
  reflexivity.
Qed.

(** Origins written one after the other, with a comma and a space between
    them, are read back as they are. *)
Lemma origins_read_back (origins : list string) :
  origins <> [] ->
  Forall (fun origin => trim origin = origin /\ includes origin "," = false)
         origins ->
  map trim (split "," (String.concat ", " origins)) = origins.
Proof.
  induction origins as [|o origins IH]; intros Hne Hall; [now elim Hne|].
  inversion Hall as [|? ? [Ho Hc] Hrest]; subst.
  destruct origins as [|o2 origins].
  - simpl. rewrite (split_no_comma o Hc). simpl. now rewrite Ho.
  - change (String.concat ", " (o :: o2 :: origins))
      with (o ++ "," ++ String " " (String.concat ", " (o2 :: origins))).
    rewrite (split_at_comma o _ Hc).
    cbn [map]. rewrite Ho, trim_after_space, IH; [reflexivity| |exact Hrest].
    discriminate.
Qed.

(** X10. A CORS_ORIGIN made of origins separated by a comma and a space
    allows exactly these origins, in their order, when none of them holds a
    comma or begins or ends with white space. *)
Theorem cors_origins_of_list (env : Env) (origins : list string) :
  origins <> [] ->
  Forall (fun origin => trim origin = origin /\ includes origin "," = false)
         origins ->
  String.concat ", " origins <> EmptyString ->
  CORS_ORIGIN env = Some (String.concat ", " origins) ->
  corsOrigins env = origins.
Proof.
  intros Hne Hall Hjoin Henv.
  unfold corsOrigins, cors_origin. rewrite Henv.
  destruct (String.concat ", " origins) as [|c s] eqn:E; [now elim Hjoin|].
  cbn [orDefault]. rewrite <- E. now apply origins_read_back.
Qed.

Lemma cors_origins_of_list_witness :
  corsOrigins {| NODE_ENV := Some "production"; GEMINI_API_KEY := None;
                 CORS_ORIGIN :=
                   Some "https://tutor.example.com, http://localhost:5173" |}
  = ["https://tutor.example.com"; "http://localhost:5173"].
Proof.
  apply (cors_origins_of_list
           {| NODE_ENV := Some "production"; GEMINI_API_KEY := None;
              CORS_ORIGIN :=
                Some "https://tutor.example.com, http://localhost:5173" |}
           ["https://tutor.example.com"; "http://localhost:5173"]).
  - discriminate.
  - repeat constructor.
  - discriminate.
  - reflexivity.
Defined.

End Cors.
